(** * Codebot: submission review-and-execution pipeline of [main.py]

    Shallow embedding of the parts of [main.py] that decide what happens
    to a code submission: the static risk heuristics
    ([static_risk_check]), the Judge0 language resolver
    ([find_language_id]), the Judge0 submission helper
    ([submit_to_judge0]), the [/submit_code] command handler and the
    SQLite helpers it uses (submissions, guild configuration, votes).

    Text is modelled as ASCII strings: Python's Unicode-aware notions
    ([str.isspace], [str.lower], [\b], [\s]) are restricted to their ASCII
    part.  Discord embeds are recorded only by their title, and the
    presentation-only values (detected packages, the highlight image) are
    not modelled since nothing is persisted from them. *)

From Stdlib Require Import String Ascii List Bool ZArith Lia Sorted Permutation.
Import ListNotations.
Open Scope string_scope.
Open Scope Z_scope.
Set Warnings "-register-all -abstract-large-number".


(** ** Characters and strings *)

Definition chr (n : nat) : ascii := ascii_of_nat n.

(** [str.isspace] on ASCII: space, \t \n \v \f \r and \x1c-\x1f. *)
Definition is_space (c : ascii) : bool :=
  let n := nat_of_ascii c in
  (Nat.eqb n 32 || ((9 <=? n) && (n <=? 13)) || ((28 <=? n) && (n <=? 31)))%nat.

Definition is_upper (c : ascii) : bool :=
  let n := nat_of_ascii c in ((65 <=? n) && (n <=? 90))%nat.

Definition is_lower_letter (c : ascii) : bool :=
  let n := nat_of_ascii c in ((97 <=? n) && (n <=? 122))%nat.

Definition is_digit (c : ascii) : bool :=
  let n := nat_of_ascii c in ((48 <=? n) && (n <=? 57))%nat.

(** [\w] on ASCII: letters, digits and underscore. *)
Definition is_word (c : ascii) : bool :=
  is_upper c || is_lower_letter c || is_digit c || Ascii.eqb c "_"%char.

(** [str.lower] on one ASCII character. *)
Definition lower_char (c : ascii) : ascii :=
  if is_upper c then chr (nat_of_ascii c + 32) else c.

Definition lower (s : string) : string :=
  string_of_list_ascii (map lower_char (list_ascii_of_string s)).

Fixpoint drop_spaces (l : list ascii) : list ascii :=
  match l with
  | [] => []
  | c :: r => if is_space c then drop_spaces r else l
  end.

(** [str.strip()] with no argument. *)
Definition strip (s : string) : string :=
  string_of_list_ascii
    (rev (drop_spaces (rev (drop_spaces (list_ascii_of_string s))))).

(** [str.isdigit] on ASCII: non-empty and every character a digit. *)
Definition isdigit (s : string) : bool :=
  match list_ascii_of_string s with
  | [] => false
  | l => forallb is_digit l
  end.

(** [int(s)] on a string of decimal digits. *)
Definition int_of_digits (s : string) : Z :=
  fold_left (fun acc c => acc * 10 + (Z.of_nat (nat_of_ascii c) - 48))
            (list_ascii_of_string s) 0.

Fixpoint digits_aux (fuel : nat) (n : Z) (acc : string) : string :=
  match fuel with
  | O => acc
  | S f =>
      let acc' := String (chr (48 + Z.to_nat (n mod 10))) acc in
      if n / 10 =? 0 then acc' else digits_aux f (n / 10) acc'
  end.

(** [str(n)] for a Python [int]. *)
Definition str_of_Z (z : Z) : string :=
  match z with
  | Z0 => "0"
  | Zpos p => digits_aux (Pos.size_nat p) z ""
  | Zneg p => "-" ++ digits_aux (Pos.size_nat p) (Zpos p) ""
  end.

Fixpoint prefixb (p s : list ascii) : bool :=
  match p, s with
  | [], _ => true
  | a :: p', b :: s' => Ascii.eqb a b && prefixb p' s'
  | _ :: _, [] => false
  end.

Fixpoint sublistb (p s : list ascii) : bool :=
  prefixb p s || match s with [] => false | _ :: s' => sublistb p s' end.

(** Python's [needle in haystack] on strings. *)
Definition contains (needle hay : string) : bool :=
  sublistb (list_ascii_of_string needle) (list_ascii_of_string hay).

(** [sep.join(xs)]. *)
Fixpoint join (sep : string) (xs : list string) : string :=
  match xs with
  | [] => ""
  | [x] => x
  | x :: r => x ++ sep ++ join sep r
  end.

(** Line boundaries of [str.splitlines] on ASCII. *)
Definition is_line_break (c : ascii) : bool :=
  let n := nat_of_ascii c in
  ((10 <=? n) && (n <=? 13) || (28 <=? n) && (n <=? 30))%nat.

Fixpoint splitlines_aux (cur : list ascii) (s : list ascii) : list (list ascii) :=
  match s with
  | [] => match cur with [] => [] | _ => [rev cur] end
  | c :: r =>
      if is_line_break c then
        if Ascii.eqb c (chr 13) then
          match r with
          | d :: r' => if Ascii.eqb d (chr 10) then rev cur :: splitlines_aux [] r'
                       else rev cur :: splitlines_aux [] r
          | [] => [rev cur]
          end
        else rev cur :: splitlines_aux [] r
      else splitlines_aux (c :: cur) r
  end.

(** [str.splitlines()]. *)
Definition splitlines (s : string) : list string :=
  map string_of_list_ascii (splitlines_aux [] (list_ascii_of_string s)).

(** [s[:n]]. *)
Definition take (n : nat) (s : string) : string := substring 0 n s.

(** ** A backtracking-free model of Python's [re.search]

    [ends r s i] is the list of positions [j] such that [r] matches
    [s[i:j]].  For the patterns of [main.py] (no back-references, no
    look-around other than [\b]) [re.search] succeeds exactly when some
    start position has a non-empty [ends]. *)
Inductive regex : Type :=
| REps
| RChar (p : ascii -> bool)
| RSeq (r1 r2 : regex)
| RAlt (r1 r2 : regex)
| RStar (r : regex)
| RWordB.

Fixpoint mem_nat (x : nat) (l : list nat) : bool :=
  match l with [] => false | y :: r => Nat.eqb x y || mem_nat x r end.

Fixpoint dedup_aux (seen : list nat) (l : list nat) : list nat :=
  match l with
  | [] => rev seen
  | x :: r => if mem_nat x seen then dedup_aux seen r else dedup_aux (x :: seen) r
  end.

Definition dedup (l : list nat) : list nat := dedup_aux [] l.

Fixpoint star_iter (f : nat -> list nat) (fuel : nat) (acc : list nat) : list nat :=
  match fuel with
  | O => acc
  | S k =>
      let acc' := dedup (acc ++ flat_map f acc) in
      if Nat.eqb (length acc') (length acc) then acc else star_iter f k acc'
  end.

Definition word_at (s : list ascii) (i : nat) : bool :=
  match nth_error s i with Some c => is_word c | None => false end.

Fixpoint ends (r : regex) (s : list ascii) (i : nat) : list nat :=
  match r with
  | REps => [i]
  | RChar p =>
      match nth_error s i with
      | Some c => if p c then [S i] else []
      | None => []
      end
  | RSeq r1 r2 => dedup (flat_map (ends r2 s) (ends r1 s i))
  | RAlt r1 r2 => dedup (ends r1 s i ++ ends r2 s i)
  | RStar r1 => star_iter (ends r1 s) (S (length s)) [i]
  | RWordB =>
      let before := match i with O => false | S k => word_at s k end in
      if xorb before (word_at s i) then [i] else []
  end.

Definition re_search (r : regex) (code : string) : bool :=
  let s := list_ascii_of_string code in
  existsb (fun i => match ends r s i with [] => false | _ => true end)
          (seq 0 (S (length s))).

(** Pattern building blocks. *)
Definition lit_cs (x : ascii) : regex := RChar (fun c => Ascii.eqb c x).
Definition lit_ci (x : ascii) : regex :=
  RChar (fun c => Ascii.eqb (lower_char c) (lower_char x)).

Fixpoint word (lit : ascii -> regex) (l : list ascii) : regex :=
  match l with
  | [] => REps
  | [c] => lit c
  | c :: r => RSeq (lit c) (word lit r)
  end.

(** A literal run, case-sensitive or under [re.IGNORECASE]. *)
Definition W (s : string) : regex := word lit_cs (list_ascii_of_string s).
Definition Wi (s : string) : regex := word lit_ci (list_ascii_of_string s).

Definition cat (rs : list regex) : regex := fold_right RSeq REps rs.

Definition alts (rs : list regex) : regex :=
  match rs with [] => REps | r :: rest => fold_left RAlt rest r end.

Definition plus (r : regex) : regex := RSeq r (RStar r).

Fixpoint rep (n : nat) (r : regex) : regex :=
  match n with O => REps | S k => RSeq r (rep k r) end.

(** [\s]. *)
Definition ws : regex := RChar is_space.

Definition dquote : ascii := chr 34.
Definition backslash : string := String (chr 92) "".

(** ** Static heuristics ([SUSPICIOUS_PATTERNS], [static_risk_check])

    Each pattern is kept with its Python source text, which appears in
    the reason string.  All of them are searched with [re.IGNORECASE]. *)
Definition not_rparen : regex := RChar (fun c => negb (Ascii.eqb c ")"%char)).

Definition SUSPICIOUS_PATTERNS : list (string * regex) :=
  [ ("\beval\(", RSeq RWordB (Wi "eval("));
    ("\bexec\(", RSeq RWordB (Wi "exec("));
    ("import\s+os", cat [Wi "import"; plus ws; Wi "os"]);
    ("subprocess\.", Wi "subprocess.");
    ("socket\.", Wi "socket.");
    ("requests\.", Wi "requests.");
    ("open\([^)]*['\" ++ String dquote "]/etc",
       cat [Wi "open("; RStar not_rparen; RAlt (lit_ci "'"%char) (lit_ci dquote);
            Wi "/etc"]);
    ("rm\s+-rf", cat [Wi "rm"; plus ws; Wi "-rf"]);
    ("os\.remove", Wi "os.remove");
    ("shutil\.rmtree", Wi "shutil.rmtree");
    ("popen\(", Wi "popen(");
    ("base64\.b64decode", Wi "base64.b64decode");
    ("urllib\.request", Wi "urllib.request");
    ("paramiko", Wi "paramiko");
    ("ctypes\.", Wi "ctypes.");
    ("System\.Diagnostics", Wi "System.Diagnostics") ].

(** [[A-Za-z0-9+/]{50,}={0,2}], case-sensitive. *)
Definition b64_char : regex :=
  RChar (fun c => is_upper c || is_lower_letter c || is_digit c
                  || Ascii.eqb c "+"%char || Ascii.eqb c "/"%char).

Definition BASE64_BLOB : regex :=
  cat [rep 50 b64_char; RStar b64_char; RAlt REps (RAlt (W "=") (W "=="))].

(** [\b(open|os\.open|Path\()], case-sensitive. *)
Definition FILE_OPEN : regex :=
  RSeq RWordB (alts [W "open"; W "os.open"; W "Path("]).

(** [read|write|w\+|rb] with [re.IGNORECASE]. *)
Definition FILE_RW : regex := alts [Wi "read"; Wi "write"; Wi "w+"; Wi "rb"].

Definition pattern_step (code : string) (acc : list string * Z) (p : string * regex)
  : list string * Z :=
  let '(reasons, score) := acc in
  let '(pat_src, pat) := p in
  if re_search pat code
  then (app reasons ["Matched suspicious pattern: `" ++ pat_src ++ "`"], score + 30)
  else (reasons, score).

Definition static_risk_check (code : string) : Z * list string :=
  let '(reasons, score) := fold_left (pattern_step code) SUSPICIOUS_PATTERNS ([], 0) in
  let '(reasons, score) :=
    if re_search BASE64_BLOB code
    then (app reasons ["Detected long base64-like blob (possible obfuscation)."], score + 20)
    else (reasons, score) in
  let '(reasons, score) :=
    if re_search FILE_OPEN code && re_search FILE_RW code
    then (app reasons ["Contains file read/write patterns."], score + 10)
    else (reasons, score) in
  (Z.min 100 score, reasons).

(** ** JSON values returned by Judge0 *)
Inductive json : Type :=
| JNull
| JBool (b : bool)
| JNum (n : Z)
| JStr (s : string)
| JArr (xs : list json)
| JObj (kvs : list (string * json)).

(** [d.get(k)] on a decoded object: [json.loads] keeps the last binding
    of a repeated key. *)
Definition jget (k : string) (kvs : list (string * json)) : option json :=
  match find (fun kv => String.eqb (fst kv) k) (rev kvs) with
  | Some (_, v) => Some v
  | None => None
  end.

(** Python truthiness of a JSON value. *)
Definition truthy (v : json) : bool :=
  match v with
  | JNull => false
  | JBool b => b
  | JNum n => negb (n =? 0)
  | JStr s => negb (String.eqb s "")
  | JArr xs => match xs with [] => false | _ => true end
  | JObj kvs => match kvs with [] => false | _ => true end
  end.

(** [str(v)] of a decoded value ([repr] for the elements of containers;
    escape sequences inside nested strings are not reproduced). *)
Fixpoint py_repr (v : json) : string :=
  match v with
  | JNull => "None"
  | JBool b => if b then "True" else "False"
  | JNum n => str_of_Z n
  | JStr s => "'" ++ s ++ "'"
  | JArr xs => "[" ++ join ", " (map py_repr xs) ++ "]"
  | JObj kvs =>
      "{" ++ join ", " (map (fun kv => "'" ++ fst kv ++ "': " ++ py_repr (snd kv)) kvs)
      ++ "}"
  end.

Definition py_str (v : json) : string :=
  match v with JStr s => s | _ => py_repr v end.

(** [str(d.get(k))]: a missing key gives [None]. *)
Definition py_str_opt (v : option json) : string :=
  match v with Some v => py_str v | None => "None" end.

(** ** Judge0 language catalog entries *)
Record lang_entry := mkLang {
  le_id : Z;
  le_name : option string;            (** [None]: key absent *)
  le_language : option string;
  le_aliases : option (list string)
}.

(** [str(lang.get(k, ""))]. *)
Definition field_or_empty (v : option string) : string :=
  match v with Some s => s | None => "" end.

(** The lowered values collected in the first pass of [find_language_id]
    for the keys [name], [language], [aliases] (falsy values skipped). *)
Definition cand_values (l : lang_entry) : list string :=
  let one v := match v with
               | Some s => if String.eqb s "" then [] else [lower s]
               | None => []
               end in
  one (le_name l) ++ one (le_language l)
  ++ match le_aliases l with Some xs => map lower xs | None => [] end.

(** First pass: exact matches on id, name, language or aliases. *)
Fixpoint exact_pass (u : string) (langs : list lang_entry) : option Z :=
  match langs with
  | [] => None
  | l :: rest =>
      if String.eqb (lower (str_of_Z (le_id l))) u then Some (le_id l)
      else if existsb (fun v => String.eqb u v) (cand_values l) then Some (le_id l)
      else exact_pass u rest
  end.

Definition substring_text (l : lang_entry) : string :=
  lower (join " " [str_of_Z (le_id l); field_or_empty (le_name l);
                   field_or_empty (le_language l)]).

(** Second pass: substring match. *)
Fixpoint substring_pass (u : string) (langs : list lang_entry) : option Z :=
  match langs with
  | [] => None
  | l :: rest => if contains u (substring_text l) then Some (le_id l)
                 else substring_pass u rest
  end.

Definition fallback_aliases : list (string * string) :=
  [("py", "python"); ("python3", "python"); ("js", "javascript");
   ("node", "javascript"); ("c++", "cpp"); ("c#", "csharp")].

Definition alias_lookup (u : string) : option string :=
  match find (fun kv => String.eqb (fst kv) u) fallback_aliases with
  | Some (_, m) => Some m
  | None => None
  end.

Fixpoint mapped_pass (mapped : string) (langs : list lang_entry) : option Z :=
  match langs with
  | [] => None
  | l :: rest =>
      if contains mapped (lower (field_or_empty (le_name l)))
         || contains mapped (lower (field_or_empty (le_language l)))
      then Some (le_id l) else mapped_pass mapped rest
  end.

(** Third pass: the fixed alias table. *)
Definition fallback_pass (u : string) (langs : list lang_entry) : option Z :=
  match alias_lookup u with
  | Some mapped => mapped_pass mapped langs
  | None => None
  end.

(** The three passes over a catalog, first match wins. *)
Definition resolve_in_catalog (u : string) (langs : list lang_entry) : option Z :=
  match exact_pass u langs with
  | Some i => Some i
  | None =>
      match substring_pass u langs with
      | Some i => Some i
      | None => fallback_pass u langs
      end
  end.

(** ** The SQLite store ([init_db] tables and their helpers) *)
Record submission := mkSubmission {
  sub_guild_id : Z;
  sub_user_id : Z;
  sub_language : string;
  sub_code : string;
  sub_requirements : option string;
  sub_status : string;
  sub_ai_summary : option string;
  sub_run_stdout : option string;
  sub_run_stderr : option string
}.

(** Rows of the three tables; [next_id] is the AUTOINCREMENT counter of
    [submissions].  [votes] rows are (submission_id, user_id, vote). *)
Record db := mkDb {
  guild_config : list (Z * Z);
  submissions : list (Z * submission);
  next_id : Z;
  votes : list (Z * Z * Z)
}.

Definition get_form_channel_db (d : db) (guild_id : Z) : option Z :=
  match find (fun r => fst r =? guild_id) (guild_config d) with
  | Some (_, c) => Some c
  | None => None
  end.

(** [SELECT ... WHERE id = ?] on the submissions table. *)
Definition get_submission (d : db) (sid : Z) : option submission :=
  match find (fun r => fst r =? sid) (submissions d) with
  | Some (_, s) => Some s
  | None => None
  end.

Definition save_submission (d : db) (guild_id user_id : Z) (language code : string)
  (requirements : option string) (status : string) (ai_summary stdout stderr : option string)
  : Z * db :=
  let sid := next_id d in
  let row := mkSubmission guild_id user_id language code requirements status
                          ai_summary stdout stderr in
  (sid, mkDb (guild_config d) ((sid, row) :: submissions d) (sid + 1) (votes d)).

Definition opt_set {A} (v : option A) (old : A) : A :=
  match v with Some x => x | None => old end.

Definition opt_set_opt {A} (v : option A) (old : option A) : option A :=
  match v with Some x => Some x | None => old end.

Definition apply_update (status ai_summary stdout stderr : option string)
  (s : submission) : submission :=
  mkSubmission (sub_guild_id s) (sub_user_id s) (sub_language s) (sub_code s)
    (sub_requirements s) (opt_set status (sub_status s))
    (opt_set_opt ai_summary (sub_ai_summary s))
    (opt_set_opt stdout (sub_run_stdout s))
    (opt_set_opt stderr (sub_run_stderr s)).

(** [update_submission_result]: only the given ([not None]) columns are
    written; with none given the table is left untouched. *)
Definition update_submission_result (d : db) (sid : Z)
  (status ai_summary stdout stderr : option string) : db :=
  match status, ai_summary, stdout, stderr with
  | None, None, None, None => d
  | _, _, _, _ =>
      mkDb (guild_config d)
        (map (fun r => if fst r =? sid
                       then (fst r, apply_update status ai_summary stdout stderr (snd r))
                       else r) (submissions d))
        (next_id d) (votes d)
  end.

(** [set_vote]: [INSERT OR REPLACE] on the primary key
    (submission_id, user_id). *)
Definition set_vote_rows (rows : list (Z * Z * Z)) (submission_id user_id vote : Z)
  : list (Z * Z * Z) :=
  filter (fun r => negb ((fst (fst r) =? submission_id) && (snd (fst r) =? user_id))) rows
  ++ [(submission_id, user_id, vote)].

Definition set_vote (d : db) (submission_id user_id vote : Z) : db :=
  mkDb (guild_config d) (submissions d) (next_id d)
       (set_vote_rows (votes d) submission_id user_id vote).

Fixpoint sumZ (l : list Z) : Z :=
  match l with [] => 0 | x :: r => x + sumZ r end.

(** [get_votes]: the SUM of [vote] and the COUNT of rows with the given [submission_id];
    [SUM] over no rows is [NULL], turned into [0] by [or 0]. *)
Definition get_votes_rows (rows : list (Z * Z * Z)) (submission_id : Z) : Z * Z :=
  let sel := filter (fun r => fst (fst r) =? submission_id) rows in
  (sumZ (map snd sel), Z.of_nat (length sel)).

Definition get_votes (d : db) (submission_id : Z) : Z * Z :=
  get_votes_rows (votes d) submission_id.

(** ** Effects of a command run

    Outward effects are recorded as events: Discord messages by their
    title, the two Judge0 requests, and posts to a channel. *)
Inductive event : Type :=
| EvFollowup (title : string)
| EvDM (title : string)
| EvFetchLanguages
| EvExecute (language_id : Z) (code : string)
| EvPost (channel_id : Z) (title : string) (status_field : string).

(** What Judge0 answers to [POST /submissions]. *)
Inductive exec_reply : Type :=
| ReplyBody (http_status : Z) (body : string)  (** a response was read *)
| ReplyTimeout                                 (** [asyncio.TimeoutError] *)
| ReplyException (msg : string).               (** any other exception, [str(e)] *)

(** The outside world during one run: the answer of [GET /languages]
    ([None] when [fetch_judge0_languages] returns [None]), the answer to
    the submission request, the channels [bot.get_channel] finds, those
    of them that are [discord.ForumChannel]s, and whether
    [render_code_highlight_image] returns (it calls [font.getsize],
    which Pillow 10 removed, and the Pillow version is not pinned). *)
Record backend := mkBackend {
  b_languages : option (list lang_entry);
  b_exec : exec_reply;
  b_channels : list Z;
  b_forums : list Z;
  b_render_ok : bool
}.

(** Process state: the database, [bot._cached_judge0_languages] ([None]
    while the attribute is unset or [None]) and the events so far. *)
Record state := mkState {
  st_db : db;
  st_cache : option (list lang_entry);
  st_events : list event
}.

(** A reader/state/exception monad: [None] is an uncaught exception,
    after which the effects already performed remain. *)
Definition M (A : Type) : Type := backend -> state -> option A * state.

Definition ret {A} (a : A) : M A := fun _ s => (Some a, s).

Definition bind {A B} (m : M A) (k : A -> M B) : M B :=
  fun b s => match m b s with
             | (Some a, s') => k a b s'
             | (None, s') => (None, s')
             end.

Definition raise {A} : M A := fun _ s => (None, s).

Notation "x <- m ;; k" := (bind m (fun x => k))
  (at level 61, m at next level, right associativity).
Notation "m ;; k" := (bind m (fun _ => k)) (at level 61, right associativity).

Definition ask : M backend := fun b s => (Some b, s).

Definition emit (e : event) : M unit :=
  fun _ s => (Some tt, mkState (st_db s) (st_cache s) (st_events s ++ [e])).

Definition get_cache : M (option (list lang_entry)) := fun _ s => (Some (st_cache s), s).

Definition set_cache (c : option (list lang_entry)) : M unit :=
  fun _ s => (Some tt, mkState (st_db s) c (st_events s)).

Definition with_db {A} (f : db -> A * db) : M A :=
  fun _ s => let '(a, d') := f (st_db s) in
             (Some a, mkState d' (st_cache s) (st_events s)).

Definition read_db {A} (f : db -> A) : M A := fun _ s => (Some (f (st_db s)), s).

(** ** Judge0 helpers *)

(** [fetch_judge0_languages]: one [GET /languages]. *)
Definition fetch_judge0_languages : M (option (list lang_entry)) :=
  emit EvFetchLanguages ;;
  b <- ask ;;
  ret (b_languages b).

(** [find_language_id]. *)
Definition find_language_id (user_lang : string) : M (option Z) :=
  let user_lang_norm := lower (strip user_lang) in
  if String.eqb user_lang_norm "" then ret None
  else if isdigit user_lang_norm then ret (Some (int_of_digits user_lang_norm))
  else
    cached <- get_cache ;;
    (match cached with
     | None =>
         langs <- fetch_judge0_languages ;;
         set_cache (Some (match langs with Some ls => ls | None => [] end))
     | Some _ => ret tt
     end) ;;
    cached' <- get_cache ;;
    let langs := match cached' with Some ls => ls | None => [] end in
    ret (resolve_in_catalog user_lang_norm langs).

(** Exceptions escaping [session.post] in [submit_to_judge0]. *)
Inductive py_exc : Type :=
| TimeoutError
| OtherError (msg : string).

Definition nl : string := String (chr 10) "".

Definition non_json_error (http_status : Z) (text : string) : string :=
  "Judge0 returned non-JSON response (status " ++ str_of_Z http_status ++ "): " ++ text.

(** Python's ["error" in result] on a decoded response; [None] is the
    [TypeError] raised for numbers, booleans and [None]. *)
Definition error_in (result : json) : option bool :=
  match result with
  | JObj kvs => Some (existsb (fun kv => String.eqb (fst kv) "error") kvs)
  | JArr xs => Some (existsb (fun x => match x with
                                       | JStr s => String.eqb s "error"
                                       | _ => false
                                       end) xs)
  | JStr s => Some (contains "error" s)
  | _ => None
  end.

(** [(v or "")] used as a string: a truthy non-string raises at its first
    string operation ([.strip()], slicing, or the SQLite bind). *)
Definition text_or_empty (v : option json) : M string :=
  match v with
  | Some v => if truthy v then match v with JStr s => ret s | _ => raise end
              else ret ""
  | None => ret ""
  end.

(** [compile_out[:800]] inside an f-string: lists are sliced and printed,
    other truthy non-strings raise [TypeError]. *)
Definition compile_text (v : option json) : M string :=
  match v with
  | Some v =>
      if truthy v then
        match v with
        | JStr s => ret (take 800 s)
        | JArr xs => ret (py_repr (JArr (firstn 800 xs)))
        | _ => raise
        end
      else ret ""
  | None => ret ""
  end.

(** [(result.get("error") or "")[:1500]], made a string by [add_field]:
    strings and lists slice, other truthy values raise [TypeError]. *)
Definition error_value (v : option json) : M string :=
  match v with
  | Some v =>
      if truthy v then
        match v with
        | JStr s => ret (take 1500 s)
        | JArr xs => ret (py_repr (JArr (firstn 1500 xs)))
        | _ => raise
        end
      else ret ""
  | None => ret ""
  end.

(** [status_desc] of the completed path. *)
Definition status_desc_of (kvs : list (string * json)) : string :=
  match jget "status" kvs with
  | Some (JObj skvs) =>
      match skvs with
      | [] => "None"                       (** [{}.get("description")] *)
      | _ => py_str_opt (jget "description" skvs)
      end
  | Some v => if truthy v then py_str v else "None"
  | None => "None"
  end.

Definition fence : string := "```".

Definition ai_analysis_of (status_desc time_used memory_used stdout stderr compile_out
  : string) : string :=
  "Execution analysis:" ++ nl ++ "Status: " ++ status_desc ++ nl
  ++ "Time: " ++ time_used ++ nl ++ "Memory: " ++ memory_used ++ nl ++ nl
  ++ "Stdout (short):" ++ nl ++ fence ++ nl ++ take 800 stdout ++ nl ++ fence ++ nl
  ++ "Stderr (short):" ++ nl ++ fence ++ nl ++ take 800 stderr ++ nl ++ fence ++ nl
  ++ "Compile output (short):" ++ nl ++ fence ++ nl ++ compile_out ++ nl ++ fence ++ nl.

(** The summary written right after intake. *)
Definition ai_summary_of (code : string) (reasons : list string) : string :=
  let base := "Automatic summary:" ++ nl ++ join nl (firstn 10 (splitlines code)) in
  match reasons with
  | [] => base
  | _ => base ++ nl ++ nl ++ "Potential risks:" ++ nl ++ "- " ++ join (nl ++ "- ") reasons
  end.

Definition mem_Z (x : Z) (l : list Z) : bool := existsb (Z.eqb x) l.

(** [bot.get_channel(form_channel_id)] is truthy. *)
Definition channel_found (fc : Z) : M bool :=
  b <- ask ;; ret (mem_Z fc (b_channels b)).

Definition update (sid : Z) (status ai_summary stdout stderr : option string) : M unit :=
  with_db (fun d => (tt, update_submission_result d sid status ai_summary stdout stderr)).

(** *** Discord messages

    Discord refuses an embed with a field value that is empty or longer
    than 1024 characters, or with a description longer than 4096
    characters: the send raises [discord.HTTPException].  [ok] says
    whether the parts of the embed that depend on the input pass these
    checks; the other parts of every embed of [submit_code] are fixed
    texts or slices within the limits. *)
Definition field_ok (v : string) : bool :=
  (1 <=? String.length v)%nat && (String.length v <=? 1024)%nat.

Definition description_ok (v : string) : bool := (String.length v <=? 4096)%nat.

(** [await interaction.followup.send(embed=...)]. *)
Definition followup_send (title : string) (ok : bool) : M unit :=
  if ok then emit (EvFollowup title) else raise.

(** [await channel.send(embed=...)]: a [ForumChannel] has no [send]
    ([AttributeError]). *)
Definition channel_send (fc : Z) (title status_field : string) (ok : bool) : M unit :=
  b <- ask ;;
  if mem_Z fc (b_forums b) then raise
  else if ok then emit (EvPost fc title status_field) else raise.

(** A field added only [if xs:], with the value [", ".join(xs)]. *)
Definition list_field_ok (xs : list string) : bool :=
  match xs with [] => true | _ => field_ok (join ", " xs) end.

(** [(", ".join(detected_pkgs) or "None detected")]. *)
Definition detected_value (xs : list string) : string :=
  let v := join ", " xs in if String.eqb v "" then "None detected" else v.

(** [l.get(k)] used as a truth value. *)
Definition nonempty (v : option string) : option string :=
  match v with Some s => if String.eqb s "" then None else Some s | None => None end.

(** [str(l.get("name") or l.get("language") or l.get("id"))]. *)
Definition lang_display (l : lang_entry) : string :=
  match nonempty (le_name l) with
  | Some s => s
  | None => match nonempty (le_language l) with Some s => s | None => str_of_Z (le_id l) end
  end.

(** The sample of the "Language Not Found" message. *)
Definition sample_languages (langs : option (list lang_entry)) : string :=
  match langs with
  | Some ((_ :: _) as ls) => join ", " (map lang_display (firstn 20 ls))
  | _ => "Could not fetch languages from Judge0"
  end.

Definition lang_not_found_description (language sample : string) : string :=
  "Could not resolve `" ++ language ++ "` to a Judge0 language id." ++ nl ++ nl
  ++ "Sample languages: " ++ sample.

(** The arguments of the [/submit_code] interaction. *)
Record request := mkRequest {
  rq_guild : option Z;          (** [interaction.guild], by id *)
  rq_user : Z;
  rq_language : string;
  rq_code : string;
  rq_requirements : option string
}.


(** ** Observations on a run *)

Fixpoint exec_calls (evs : list event) : nat :=
  match evs with
  | [] => 0
  | EvExecute _ _ :: r => S (exec_calls r)
  | _ :: r => exec_calls r
  end.

Fixpoint fetch_calls (evs : list event) : nat :=
  match evs with
  | [] => 0
  | EvFetchLanguages :: r => S (fetch_calls r)
  | _ :: r => fetch_calls r
  end.

(** Posts made to a channel, with their status field. *)
Fixpoint posts (evs : list event) : list (Z * string) :=
  match evs with
  | [] => []
  | EvPost c _ st :: r => (c, st) :: posts r
  | _ :: r => posts r
  end.

(** The submission created by a run started in [s0], as found in [s1]. *)
Definition new_submission (s0 s1 : state) : option submission :=
  get_submission (st_db s1) (next_id (st_db s0)).
(** ** Further parts of [main.py] *)

(** [set_form_channel_db]: [INSERT OR REPLACE] on the primary key
    [guild_id]. *)
Definition set_form_channel_db (d : db) (guild_id channel_id : Z) : db :=
  mkDb (filter (fun r => negb (fst r =? guild_id)) (guild_config d) ++ [(guild_id, channel_id)])
       (submissions d) (next_id d) (votes d).

(** The two buttons of [VoteView]. *)
Inductive button : Type := Upvote | Downvote.

Definition press (d : db) (submission_id user_id : Z) (bt : button) : db :=
  match bt with
  | Upvote => set_vote d submission_id user_id 1
  | Downvote => set_vote d submission_id user_id (-1)
  end.

(** *** A backtracking matcher with one capture group

    The import detectors read [m.group(1)] of [re.finditer] matches, so
    they need Python's match priority (greedy repetition, first
    alternative first, leftmost start), not only the set of match ends.
    [bt fuel r s i cap k] tries to match [r] at [i] and passes the end
    position and the capture to the continuation [k], backtracking on
    [None].  A repetition stops when an iteration matches the empty
    string.  The fuel bounds the depth of the search; [match_at] gives
    one step per pattern node and input position. *)
Inductive pat : Type :=
| PEmpty
| PChar (p : ascii -> bool)
| PSeq (a b : pat)
| PAlt (a b : pat)
| PStar (a : pat)                 (** greedy [*] *)
| PBol                            (** [^] under [re.MULTILINE] *)
| PGroup (a : pat).               (** the capture group 1 *)

Definition capture : Type := option (nat * nat).

Fixpoint psize (r : pat) : nat :=
  match r with
  | PEmpty | PChar _ | PBol => 1
  | PSeq a b | PAlt a b => S (psize a + psize b)
  | PStar a | PGroup a => S (psize a)
  end.

Fixpoint bt (fuel : nat) (r : pat) (s : list ascii) (i : nat) (cap : capture)
  (k : nat -> capture -> option (nat * capture)) : option (nat * capture) :=
  match fuel with
  | O => None
  | S f =>
      match r with
      | PEmpty => k i cap
      | PChar p =>
          match nth_error s i with
          | Some c => if p c then k (S i) cap else None
          | None => None
          end
      | PSeq a b => bt f a s i cap (fun j c => bt f b s j c k)
      | PAlt a b =>
          match bt f a s i cap k with
          | Some x => Some x
          | None => bt f b s i cap k
          end
      | PStar a =>
          match bt f a s i cap (fun j c => if Nat.eqb j i then None
                                           else bt f (PStar a) s j c k) with
          | Some x => Some x
          | None => k i cap
          end
      | PBol =>
          match i with
          | O => k i cap
          | S p => match nth_error s p with
                   | Some c => if Ascii.eqb c (chr 10) then k i cap else None
                   | None => None
                   end
          end
      | PGroup a => bt f a s i cap (fun j _ => k j (Some (i, j)))
      end
  end.

(** [pattern.match(s, i)]: the end and the group of the first match. *)
Definition match_at (r : pat) (s : list ascii) (i : nat) : option (nat * capture) :=
  bt (S (S (length s)) * S (psize r)) r s i None (fun j c => Some (j, c)).

Fixpoint finditer_aux (fuel : nat) (r : pat) (s : list ascii) (i : nat)
  : list (nat * nat * capture) :=
  match fuel with
  | O => []
  | S f =>
      if (length s <? i)%nat then []
      else match match_at r s i with
           | Some (j, c) => (i, j, c) :: finditer_aux f r s (if Nat.eqb j i then S i else j)
           | None => finditer_aux f r s (S i)
           end
  end.

(** [re.finditer(pattern, s)]: (start, end, group 1) of the successive
    non-overlapping matches, scanning left to right. *)
Definition finditer (r : pat) (s : list ascii) : list (nat * nat * capture) :=
  finditer_aux (S (S (length s))) r s 0.

(** [s[a:b]] for [0 <= a]. *)
Definition slice (s : list ascii) (a b : nat) : list ascii := firstn (b - a) (skipn a s).

(** [m.group(1)]. *)
Definition group1 (s : list ascii) (c : capture) : string :=
  match c with
  | Some (a, b) => string_of_list_ascii (slice s a b)
  | None => ""
  end.

Fixpoint split_pieces (s : list ascii) (start : nat) (ms : list (nat * nat * capture))
  : list string :=
  match ms with
  | [] => [string_of_list_ascii (skipn start s)]
  | (a, b, _) :: r => string_of_list_ascii (slice s start a) :: split_pieces s b r
  end.

(** [re.split(pattern, s)] for a pattern without groups. *)
Definition re_split (r : pat) (str : string) : list string :=
  let s := list_ascii_of_string str in split_pieces s 0 (finditer r s).

Definition pchr (x : ascii) : pat := PChar (fun c => Ascii.eqb c x).

Fixpoint plit (l : list ascii) : pat :=
  match l with [] => PEmpty | c :: r => PSeq (pchr c) (plit r) end.

Definition PL (s : string) : pat := plit (list_ascii_of_string s).
Definition pplus (a : pat) : pat := PSeq a (PStar a).
Definition pcat (rs : list pat) : pat := fold_right PSeq PEmpty rs.
Definition pws : pat := PChar is_space.

Definition is_quote (c : ascii) : bool := Ascii.eqb c "'"%char || Ascii.eqb c dquote.

(** [^\s*import\s+([a-zA-Z0-9_.,\s]+)] *)
Definition PY_IMPORT : pat :=
  pcat [PBol; PStar pws; PL "import"; pplus pws;
        PGroup (pplus (PChar (fun c => is_word c || Ascii.eqb c "."%char
                                       || Ascii.eqb c ","%char || is_space c)))].

(** [^\s*from\s+([a-zA-Z0-9_\.]+)\s+import] *)
Definition PY_FROM : pat :=
  pcat [PBol; PStar pws; PL "from"; pplus pws;
        PGroup (pplus (PChar (fun c => is_word c || Ascii.eqb c "."%char)));
        pplus pws; PL "import"].

(** [\s*,\s*] *)
Definition COMMA_SEP : pat := pcat [PStar pws; pchr ","%char; PStar pws].

(** [require\(\s*Q([^Q]+)Q\s*\)], where each [Q] is the class of the
    single and the double quote. *)
Definition JS_REQUIRE : pat :=
  pcat [PL "require("; PStar pws; PChar is_quote;
        PGroup (pplus (PChar (fun c => negb (is_quote c)))); PChar is_quote;
        PStar pws; PL ")"].

(** [import\s+.*\s+from\s+Q([^Q]+)Q], [Q] as above. *)
Definition JS_IMPORT : pat :=
  pcat [PL "import"; pplus pws; PStar (PChar (fun c => negb (Ascii.eqb c (chr 10))));
        pplus pws; PL "from"; pplus pws; PChar is_quote;
        PGroup (pplus (PChar (fun c => negb (is_quote c)))); PChar is_quote].

(** [^\s*import\s+([a-zA-Z0-9_\.]+)] *)
Definition GENERIC_IMPORT : pat :=
  pcat [PBol; PStar pws; PL "import"; pplus pws;
        PGroup (pplus (PChar (fun c => is_word c || Ascii.eqb c "."%char)))].

(** [_PY_STDlib]. *)
Definition PY_STDLIB : list string :=
  ["sys"; "os"; "re"; "math"; "json"; "time"; "datetime"; "itertools"; "functools";
   "hashlib"; "subprocess"; "threading"; "asyncio"; "collections"; "pathlib"; "typing";
   "random"; "statistics"; "http"; "urllib"; "socket"; "enum"; "csv"; "io"; "inspect"].

Definition mem_str (x : string) (l : list string) : bool := existsb (String.eqb x) l.

(** [mods.add(x)] on a set kept as a list without repetitions. *)
Definition set_add (x : string) (l : list string) : list string :=
  if mem_str x l then l else l ++ [x].

Fixpoint insert_sorted (x : string) (l : list string) : list string :=
  match l with
  | [] => [x]
  | y :: r => match String.compare x y with
              | Gt => y :: insert_sorted x r
              | _ => x :: l
              end
  end.

(** [sorted(xs)]: strings in code-point order. *)
Definition py_sorted (l : list string) : list string := fold_right insert_sorted [] l.

Fixpoint before_char (sep : ascii) (l : list ascii) : list ascii :=
  match l with
  | [] => []
  | c :: r => if Ascii.eqb c sep then [] else c :: before_char sep r
  end.

(** [s.split(sep)[0]]. *)
Definition split_first (sep : ascii) (s : string) : string :=
  string_of_list_ascii (before_char sep (list_ascii_of_string s)).

(** [s.startswith(p)]. *)
Definition startswith (s p : string) : bool :=
  prefixb (list_ascii_of_string p) (list_ascii_of_string s).

Definition py_import_step (mods : list string) (part : string) : list string :=
  let base := strip (split_first "."%char part) in
  if negb (String.eqb base "") && negb (mem_str base PY_STDLIB) then set_add base mods
  else mods.

Definition py_from_step (mods : list string) (base : string) : list string :=
  if negb (String.eqb base "") && negb (mem_str base PY_STDLIB) then set_add base mods
  else mods.

Definition detect_python_imports (code : string) : list string :=
  let s := list_ascii_of_string code in
  let mods := fold_left (fun mods m =>
                 let '(_, _, c) := m in
                 fold_left py_import_step (re_split COMMA_SEP (group1 s c)) mods)
               (finditer PY_IMPORT s) [] in
  let mods := fold_left (fun mods m =>
                 let '(_, _, c) := m in
                 py_from_step mods (split_first "."%char (group1 s c)))
               (finditer PY_FROM s) mods in
  py_sorted mods.

Definition js_step (s : list ascii) (mods : list string) (m : nat * nat * capture)
  : list string :=
  let '(_, _, c) := m in
  let base := split_first "/"%char (group1 s c) in
  if negb (String.eqb base "") && negb (startswith base ".") && negb (startswith base "/")
  then set_add base mods else mods.

Definition detect_js_imports (code : string) : list string :=
  let s := list_ascii_of_string code in
  let mods := fold_left (js_step s) (finditer JS_REQUIRE s) [] in
  let mods := fold_left (js_step s) (finditer JS_IMPORT s) mods in
  py_sorted mods.

Definition detect_external_packages (code language_hint : string) : list string :=
  let hint := lower (strip language_hint) in
  if startswith hint "py" || contains "python" hint then detect_python_imports code
  else if startswith hint "js" || contains "javascript" hint || contains "node" hint
  then detect_js_imports code
  else
    let s := list_ascii_of_string code in
    let generic := map (fun m => let '(_, _, c) := m in split_first "."%char (group1 s c))
                       (finditer GENERIC_IMPORT s) in
    py_sorted (fold_left (fun acc x => set_add x acc) generic []).

(** *** The highlight image of the completed path

    [highlight_lines] as computed in [submit_code], and the lines
    [render_code_highlight_image] draws (the drawing itself is not
    modelled). *)
Fixpoint first_nonblank (i : nat) (lines : list string) : option nat :=
  match lines with
  | [] => None
  | l :: r => if String.eqb (strip l) "" then first_nonblank (S i) r else Some i
  end.

Definition highlight_lines (code stdout : string) : nat * nat :=
  let n := length (splitlines code) in
  let dflt := (0%nat, Nat.min 20 (Nat.max 1 n)) in
  if String.eqb (strip stdout) "" then dflt
  else match first_nonblank 0 (splitlines stdout) with
       | Some i => (i, Nat.min (i + 8) n)
       | None => dflt
       end.

(** [lines[start:end]], falling back to [lines[:min(10, len(lines))]]. *)
Definition selected_lines (code : string) (hl : nat * nat) : list string :=
  let lines := splitlines code in
  let '(start, stop) := hl in
  match firstn (stop - start) (skipn start lines) with
  | [] => firstn (Nat.min 10 (length lines)) lines
  | sel => sel
  end.

(** The requirement list of [submit_code]: [re.split(r'[\n,]+', ...)],
    stripped, blanks dropped. *)
Definition REQ_SEP : pat :=
  pplus (PChar (fun c => Ascii.eqb c (chr 10) || Ascii.eqb c ","%char)).

Definition req_list (requirements : option string) : list string :=
  match requirements with
  | Some r =>
      if String.eqb r "" then []
      else filter (fun x => negb (String.eqb x "")) (map strip (re_split REQ_SEP r))
  | None => []
  end.

(** ** The [/submit_code] handler *)

Section Pipeline.

(** [json.loads] on a response body ([None]: it raises). *)
Variable json_loads : string -> option json.

(** [MAX_CODE_LENGTH], read from the environment at start-up. *)
Variable MAX_CODE_LENGTH : nat.

(** [submit_to_judge0]: [inl] is the returned dictionary (or decoded
    value), [inr] an exception escaping from [session.post]. *)
Definition submit_to_judge0 (language_id : Z) (code : string) : M (json + py_exc) :=
  emit (EvExecute language_id code) ;;
  b <- ask ;;
  match b_exec b with
  | ReplyBody http_status text =>
      match json_loads text with
      | Some j => ret (inl j)
      | None => ret (inl (JObj [("error", JStr (non_json_error http_status text))]))
      end
  | ReplyTimeout => ret (inr TimeoutError)
  | ReplyException m => ret (inr (OtherError m))
  end.

(** The [try]/[except] around [submit_to_judge0] in [submit_code]. *)
Definition execute_caught (language_id : Z) (code : string) : M json :=
  r <- submit_to_judge0 language_id code ;;
  match r with
  | inl j => ret j
  | inr TimeoutError => ret (JObj [("error", JStr "Timeout contacting Judge0")])
  | inr (OtherError m) => ret (JObj [("error", JStr m)])
  end.

(** The [if "error" in result:] branch.  The "AI Summary" field of the
    post is [ai_summary[:1000]], never empty. *)
Definition exec_failed_path (sid fc : Z) (language : string) (kvs : list (string * json))
  : M unit :=
  let err := jget "error" kvs in
  update sid (Some "exec_failed") None None (Some (py_str_opt err)) ;;
  followup_send "Execution Failed" (field_ok (take 1500 (py_str_opt err))) ;;
  found <- channel_found fc ;;
  if found then
    error_text <- error_value err ;;
    channel_send fc ("Code Submission — ID " ++ str_of_Z sid) "Execution failed"
      (field_ok language && field_ok error_text)
  else ret tt.

(** Parsing a Judge0 result, rendering the highlight image and posting
    the result.  The "AI Analysis (short)" and "Output (short)" fields
    are non-empty slices of at most 1000 characters. *)
Definition completed_path (sid fc : Z) (language : string) (detected reqs : list string)
  (kvs : list (string * json)) : M unit :=
  stdout <- text_or_empty (jget "stdout" kvs) ;;
  stderr <- text_or_empty (jget "stderr" kvs) ;;
  compile_out <- compile_text (jget "compile_output" kvs) ;;
  b <- ask ;;
  if negb (b_render_ok b) then raise
  else
  let ai_analysis :=
    ai_analysis_of (status_desc_of kvs) (py_str_opt (jget "time" kvs))
                   (py_str_opt (jget "memory" kvs)) stdout stderr compile_out in
  update sid (Some "completed") (Some ai_analysis) (Some stdout) (Some stderr) ;;
  found <- channel_found fc ;;
  if found then
    channel_send fc ("Code Review — ID " ++ str_of_Z sid) "Executed & Reviewed"
      (field_ok language && list_field_ok detected && list_field_ok reqs) ;;
    emit (EvFollowup "Submission Posted")
  else emit (EvFollowup "Error").

(** Everything after the static review, from [detected_pkgs] and
    [req_list] on.  The "Note" field of the preview is
    [pkg_note[:1000]], added only when non-empty. *)
Definition resolve_and_execute (sid fc : Z) (language code : string)
  (detected reqs : list string) : M unit :=
  lang_id <- find_language_id language ;;
  match lang_id with
  | None =>
      langs <- fetch_judge0_languages ;;
      update sid (Some "lang_not_found") None None None ;;
      followup_send "Language Not Found"
        (description_ok (lang_not_found_description language (sample_languages langs)))
  | Some lid =>
      followup_send "Execution Preview"
        (field_ok (str_of_Z lid) && field_ok (detected_value detected) && list_field_ok reqs) ;;
      result <- execute_caught lid code ;;
      has_error <- (match error_in result with Some e => ret e | None => raise end) ;;
      match result with
      | JObj kvs => if has_error then exec_failed_path sid fc language kvs
                    else completed_path sid fc language detected reqs kvs
      | _ => raise   (** [result.get] on a list or a string *)
      end
  end.

(** The [/submit_code] command handler. *)
Definition submit_code (rq : request) : M unit :=
  match rq_guild rq with
  | None => emit (EvFollowup "Error")
  | Some gid =>
      form_channel_id <- read_db (fun d => get_form_channel_db d gid) ;;
      match form_channel_id with
      | None => emit (EvFollowup "Form Channel Not Set")
      | Some fc =>
          if fc =? 0 then emit (EvFollowup "Form Channel Not Set")
          else if (MAX_CODE_LENGTH <? String.length (rq_code rq))%nat
          then emit (EvFollowup "Code Too Long")
          else
            sid <- with_db (fun d => save_submission d gid (rq_user rq) (rq_language rq)
                                       (rq_code rq) (rq_requirements rq) "reviewing"
                                       None None None) ;;
            let '(risk_score, reasons) := static_risk_check (rq_code rq) in
            let ai_summary := ai_summary_of (rq_code rq) reasons in
            update sid None (Some ai_summary) None None ;;
            if 50 <=? risk_score then
              update sid (Some "rejected") None None None ;;
              emit (EvFollowup "Submission Rejected") ;;
              emit (EvDM ("Submission #" ++ str_of_Z sid ++ " Rejected"))
            else
              let detected_pkgs := detect_external_packages (rq_code rq) (rq_language rq) in
              resolve_and_execute sid fc (rq_language rq) (rq_code rq) detected_pkgs
                (req_list (rq_requirements rq))
      end
  end.

End Pipeline.

(** ** A run of the process

    The commands that change the process state, one after the other: a
    [/submit_code] run meeting the outside world [b], [/set_form_channel]
    and a press on a vote button (the interaction responses of the last
    two are not recorded). *)
Inductive command : Type :=
| CmdSubmitCode (rq : request) (b : backend)
| CmdSetFormChannel (guild_id channel_id : Z)
| CmdPress (submission_id user_id : Z) (bt : button).

Definition run_command (json_loads : string -> option json) (max_len : nat) (s : state)
  (c : command) : state :=
  match c with
  | CmdSubmitCode rq b => snd (submit_code json_loads max_len rq b s)
  | CmdSetFormChannel g ch =>
      mkState (set_form_channel_db (st_db s) g ch) (st_cache s) (st_events s)
  | CmdPress sid uid bt => mkState (press (st_db s) sid uid bt) (st_cache s) (st_events s)
  end.

Definition run_commands (json_loads : string -> option json) (max_len : nat)
  (cs : list command) (s : state) : state :=
  fold_left (run_command json_loads max_len) cs s.

(** ** Concrete data used by the examples *)

(** The catalog of the spec's priority example. *)
Definition catalog_py : list lang_entry :=
  [mkLang 1 (Some "Python (3.10)") None None; mkLang 2 (Some "Py") None None].

Definition empty_state (d : db) : state := mkState d None [].

(** A database where guild 1 has form channel 10 configured. *)
Definition db_guild1 : db := mkDb [(1, 10)] [] 1 [].

Definition sixty_A : string := string_of_list_ascii (repeat "A"%char 60).

(** ** Proofs *)

Arguments static_risk_check : simpl never.
Arguments str_of_Z : simpl never.
Arguments ai_summary_of : simpl never.
Arguments ai_analysis_of : simpl never.

(** *** Characters and strings *)

Ltac all_chars c := destruct c as [[] [] [] [] [] [] [] []].

Lemma is_space_lower_char c : is_space (lower_char c) = is_space c.
Proof. all_chars c; reflexivity. Qed.

Lemma digit_not_space c : is_digit c = true -> is_space c = false.
Proof. all_chars c; vm_compute; congruence. Qed.

Lemma digit_lower_char c : is_digit c = true -> lower_char c = c.
Proof. all_chars c; vm_compute; congruence. Qed.

Lemma drop_spaces_map_lower l :
  drop_spaces (map lower_char l) = map lower_char (drop_spaces l).
Proof.
  induction l as [|c l IH]; simpl; [reflexivity|].
  rewrite is_space_lower_char. destruct (is_space c); auto.
Qed.

Lemma lower_strip s : lower (strip s) = strip (lower s).
Proof.
  unfold lower, strip.
  rewrite !list_ascii_of_string_of_list_ascii.
  rewrite drop_spaces_map_lower, <- map_rev, drop_spaces_map_lower, <- map_rev.
  reflexivity.
Qed.

Lemma drop_spaces_all_space l : forallb is_space l = true -> drop_spaces l = [].
Proof.
  induction l as [|c l IH]; simpl; [reflexivity|].
  intros H. apply andb_prop in H as [H1 H2]. rewrite H1. auto.
Qed.

Lemma drop_spaces_no_space l :
  forallb is_digit l = true -> drop_spaces l = l.
Proof.
  destruct l as [|c l]; simpl; [reflexivity|].
  intros H. apply andb_prop in H as [H1 _]. rewrite (digit_not_space c H1). reflexivity.
Qed.

Lemma forallb_rev {A} (f : A -> bool) l : forallb f (rev l) = forallb f l.
Proof.
  induction l as [|x l IH]; simpl; [reflexivity|].
  rewrite forallb_app, IH. simpl. rewrite andb_true_r, andb_comm. reflexivity.
Qed.

Lemma map_lower_digits l : forallb is_digit l = true -> map lower_char l = l.
Proof.
  induction l as [|c l IH]; simpl; [reflexivity|].
  intros H. apply andb_prop in H as [H1 H2]. rewrite digit_lower_char, IH; auto.
Qed.

(** A numeric string is its own normal form. *)
Lemma normalize_digits s : isdigit s = true -> lower (strip s) = s.
Proof.
  unfold isdigit, lower, strip. intros H.
  assert (Hd : forallb is_digit (list_ascii_of_string s) = true)
    by (destruct (list_ascii_of_string s); [discriminate|exact H]).
  rewrite (drop_spaces_no_space _ Hd).
  rewrite drop_spaces_no_space by (rewrite forallb_rev; exact Hd).
  rewrite rev_involutive, list_ascii_of_string_of_list_ascii, map_lower_digits by exact Hd.
  apply string_of_list_ascii_of_string.
Qed.

Lemma normalize_blank s :
  forallb is_space (list_ascii_of_string s) = true -> lower (strip s) = "".
Proof.
  unfold lower, strip. intros H. rewrite (drop_spaces_all_space _ H). reflexivity.
Qed.

(** *** The language resolver *)

Lemma resolve_in_empty_catalog u : resolve_in_catalog u [] = None.
Proof.
  unfold resolve_in_catalog, fallback_pass. simpl.
  destruct (alias_lookup u); reflexivity.
Qed.

Lemma fetch_calls_app l1 l2 : fetch_calls (l1 ++ l2) = (fetch_calls l1 + fetch_calls l2)%nat.
Proof.
  induction l1 as [|e l1 IH]; simpl; [reflexivity|].
  destruct e; simpl; rewrite ?IH; reflexivity.
Qed.

(** The resolver once the catalog is in hand: what it does for a
    non-empty, non-numeric input. *)
Lemma find_language_id_catalog user_lang b st :
  lower (strip user_lang) <> "" -> isdigit (lower (strip user_lang)) = false ->
  find_language_id user_lang b st =
  match st_cache st with
  | Some langs => (Some (resolve_in_catalog (lower (strip user_lang)) langs), st)
  | None =>
      let langs := match b_languages b with Some ls => ls | None => [] end in
      (Some (resolve_in_catalog (lower (strip user_lang)) langs),
       mkState (st_db st) (Some langs) (st_events st ++ [EvFetchLanguages]))
  end.
Proof.
  intros Hne Hnd. unfold find_language_id. cbv zeta.
  destruct (String.eqb (lower (strip user_lang)) "") eqn:E.
  { apply String.eqb_eq in E. contradiction. }
  rewrite Hnd. destruct st as [d c evs]. simpl.
  destruct c; reflexivity.
Qed.

(** ** Claim theorems *)



(** C10: an empty or whitespace-only language string resolves to
    [None] (Unresolved) immediately: no fetch, no change of state. *)
Theorem find_language_id_blank (user_lang : string) (b : backend) (st : state) :
  forallb is_space (list_ascii_of_string user_lang) = true ->
  find_language_id user_lang b st = (Some None, st).
Proof.
  intros H. unfold find_language_id. cbv zeta.
  rewrite (normalize_blank _ H). reflexivity.
Qed.

Lemma find_language_id_blank_witness :
  forallb is_space (list_ascii_of_string "   ") = true /\
  find_language_id "   " (mkBackend (Some catalog_py) ReplyTimeout [] [] true)
    (empty_state db_guild1)
  = (Some None, empty_state db_guild1).
Proof.
  split; [reflexivity|].
  exact (find_language_id_blank "   " _ _ eq_refl).
Defined.

(** C6: resolution is case-insensitive (inputs with the same lowercase
    form resolve alike), an exact match on any entry's id, name, language
    or alias wins over any substring match, and with the catalog
    [{id:1, name:"Python (3.10)"}; {id:2, name:"Py"}] the input "py"
    resolves to 2 although the substring pass alone would give 1. *)
Theorem find_language_id_exact_first :
  (forall s1 s2 b st, lower s1 = lower s2 ->
     find_language_id s1 b st = find_language_id s2 b st) /\
  (forall user_lang langs i b st,
     lower (strip user_lang) <> "" -> isdigit (lower (strip user_lang)) = false ->
     (st_cache st = Some langs \/ (st_cache st = None /\ b_languages b = Some langs)) ->
     exact_pass (lower (strip user_lang)) langs = Some i ->
     fst (find_language_id user_lang b st) = Some (Some i)) /\
  (forall b st,
     (st_cache st = Some catalog_py \/
      (st_cache st = None /\ b_languages b = Some catalog_py)) ->
     fst (find_language_id "py" b st) = Some (Some 2) /\
     substring_pass "py" catalog_py = Some 1).
Proof.
  assert (Hex : forall user_lang langs i b st,
     lower (strip user_lang) <> "" -> isdigit (lower (strip user_lang)) = false ->
     (st_cache st = Some langs \/ (st_cache st = None /\ b_languages b = Some langs)) ->
     exact_pass (lower (strip user_lang)) langs = Some i ->
     fst (find_language_id user_lang b st) = Some (Some i)).
  { intros user_lang langs i b st Hne Hnd Hc Hx.
    rewrite (find_language_id_catalog _ _ _ Hne Hnd).
    destruct Hc as [Hc | [Hc Hb]]; rewrite Hc; [|rewrite Hb]; simpl;
      unfold resolve_in_catalog; rewrite Hx; reflexivity. }
  split; [|split].
  - intros s1 s2 b st H.
    assert (Hn : lower (strip s1) = lower (strip s2))
      by (rewrite !lower_strip, H; reflexivity).
    unfold find_language_id. cbv zeta. rewrite Hn. reflexivity.
  - exact Hex.
  - intros b st Hc. split; [|reflexivity].
    exact (Hex "py" catalog_py 2 b st ltac:(discriminate) eq_refl Hc eq_refl).
Qed.

Lemma find_language_id_exact_first_witness :
  fst (find_language_id "py" (mkBackend (Some catalog_py) ReplyTimeout [] [] true)
         (empty_state db_guild1)) = Some (Some 2)
  /\ find_language_id "PY" (mkBackend (Some catalog_py) ReplyTimeout [] [] true)
       (empty_state db_guild1)
     = find_language_id "py" (mkBackend (Some catalog_py) ReplyTimeout [] [] true)
         (empty_state db_guild1).
Proof.
  split.
  - apply (proj2 (proj2 find_language_id_exact_first)). right. split; reflexivity.
  - apply (proj1 find_language_id_exact_first). reflexivity.
Defined.


(** *** Static risk score *)

Lemma pattern_fold_nonneg code l acc :
  0 <= snd acc -> 0 <= snd (fold_left (pattern_step code) l acc).
Proof.
  revert acc. induction l as [|[src pat] l IH]; intros [reasons score] H; simpl in *.
  - exact H.
  - apply IH. unfold pattern_step. destruct (re_search pat code); simpl; lia.
Qed.

(** C4: for every input the score lies in [0, 100]; the scorer is a
    function of its input (equal inputs give equal score and reason
    list); the empty input gives score 0 and no reasons. *)
Theorem static_risk_check_bounded :
  (forall code, 0 <= fst (static_risk_check code) <= 100) /\
  (forall code1 code2, code1 = code2 -> static_risk_check code1 = static_risk_check code2) /\
  static_risk_check "" = (0, []).
Proof.
  split; [|split].
  - intros code. unfold static_risk_check.
    pose proof (pattern_fold_nonneg code SUSPICIOUS_PATTERNS ([], 0) (Z.le_refl 0)) as H.
    destruct (fold_left (pattern_step code) SUSPICIOUS_PATTERNS ([], 0)) as [reasons score].
    simpl in H.
    destruct (re_search BASE64_BLOB code); destruct (re_search FILE_OPEN code && re_search FILE_RW code);
      simpl; lia.
  - intros code1 code2 ->. reflexivity.
  - vm_compute. reflexivity.
Qed.

Lemma static_risk_check_bounded_witness :
  static_risk_check ("exec( " ++ sixty_A) = (50, ["Matched suspicious pattern: `\bexec\(`";
    "Detected long base64-like blob (possible obfuscation)."])
  /\ 0 <= fst (static_risk_check ("exec( " ++ sixty_A)) <= 100.
Proof.
  split; [vm_compute; reflexivity|].
  apply (proj1 static_risk_check_bounded).
Defined.

(** *** Vote tallying *)

(** Votes [(voter, direction)] cast in order on one submission, each
    through [set_vote]. *)
Definition cast_votes (d : db) (submission_id : Z) (vs : list (Z * Z)) : db :=
  fold_left (fun d p => set_vote d submission_id (fst p) (snd p)) vs d.

(** The tally as the claim describes it: each distinct voter counted
    once, with the direction of their most recent vote. *)
Fixpoint last_vote (voter : Z) (vs : list (Z * Z)) : option Z :=
  match vs with
  | [] => None
  | p :: rest =>
      match last_vote voter rest with
      | Some d => Some d
      | None => if fst p =? voter then Some (snd p) else None
      end
  end.

Definition distinct_voters (vs : list (Z * Z)) : list Z :=
  fold_left (fun acc p => if mem_Z (fst p) acc then acc else app acc [fst p]) vs [].

Definition last_dir (voter : Z) (vs : list (Z * Z)) : Z :=
  match last_vote voter vs with Some d => d | None => 0 end.

Definition tally_spec (vs : list (Z * Z)) : Z * Z :=
  (sumZ (map (fun u => last_dir u vs) (distinct_voters vs)),
   Z.of_nat (length (distinct_voters vs))).

Definition voted (voter : Z) (vs : list (Z * Z)) : bool :=
  existsb (fun p => fst p =? voter) vs.

Lemma last_vote_snoc u vs p :
  last_vote u (vs ++ [p]) = if fst p =? u then Some (snd p) else last_vote u vs.
Proof.
  induction vs as [|q vs IH]; simpl.
  - destruct (fst p =? u); reflexivity.
  - rewrite IH. destruct (fst p =? u); reflexivity.
Qed.

Lemma last_vote_voted u vs :
  match last_vote u vs with Some _ => true | None => false end = voted u vs.
Proof.
  induction vs as [|q vs IH]; simpl; [reflexivity|].
  destruct (last_vote u vs); destruct (fst q =? u); simpl in *; auto.
Qed.

Lemma voted_snoc u vs p : voted u (vs ++ [p]) = voted u vs || (fst p =? u).
Proof. unfold voted. rewrite existsb_app. simpl. rewrite orb_false_r. reflexivity. Qed.

Lemma distinct_voters_snoc vs p :
  distinct_voters (vs ++ [p]) =
  if mem_Z (fst p) (distinct_voters vs) then distinct_voters vs
  else app (distinct_voters vs) [fst p].
Proof. unfold distinct_voters. rewrite fold_left_app. reflexivity. Qed.

Lemma mem_Z_app x l1 l2 : mem_Z x (l1 ++ l2) = mem_Z x l1 || mem_Z x l2.
Proof. unfold mem_Z. apply existsb_app. Qed.

Lemma mem_Z_In x l : mem_Z x l = true <-> In x l.
Proof.
  unfold mem_Z. rewrite existsb_exists. split.
  - intros [y [Hy He]]. apply Z.eqb_eq in He. subst. exact Hy.
  - intros H. exists x. split; [exact H|apply Z.eqb_refl].
Qed.

Lemma mem_distinct_voters u vs : mem_Z u (distinct_voters vs) = voted u vs.
Proof.
  induction vs as [|p vs IH] using rev_ind; [reflexivity|].
  rewrite distinct_voters_snoc, voted_snoc, <- IH.
  destruct (mem_Z (fst p) (distinct_voters vs)) eqn:E.
  - destruct (fst p =? u) eqn:E2; [|rewrite orb_false_r; reflexivity].
    apply Z.eqb_eq in E2. subst. rewrite E. reflexivity.
  - rewrite mem_Z_app. simpl. rewrite orb_false_r, Z.eqb_sym. reflexivity.
Qed.

Lemma distinct_voters_nodup vs : NoDup (distinct_voters vs).
Proof.
  induction vs as [|p vs IH] using rev_ind; [constructor|].
  rewrite distinct_voters_snoc.
  destruct (mem_Z (fst p) (distinct_voters vs)) eqn:E; [exact IH|].
  apply NoDup_app; [exact IH|repeat constructor; auto|].
  intros x Hx [Hy|[]]. subst. apply mem_Z_In in Hx. congruence.
Qed.

Lemma sumZ_app l1 l2 : sumZ (l1 ++ l2) = sumZ l1 + sumZ l2.
Proof. induction l1 as [|x l1 IH]; simpl; lia. Qed.

(** Changing a function at one point of a duplicate-free list. *)
Lemma sumZ_map_update (f g : Z -> Z) u l :
  NoDup l -> (forall v, v <> u -> g v = f v) ->
  sumZ (map g l) = sumZ (map f l) - (if mem_Z u l then f u - g u else 0).
Proof.
  intros Hnd Hfg. induction Hnd as [|x l Hx Hnd IH]; simpl; [reflexivity|].
  rewrite IH. destruct (Z.eqb_spec u x) as [->|Hne].
  - assert (mem_Z x l = false).
    { destruct (mem_Z x l) eqn:E; [apply mem_Z_In in E; contradiction|reflexivity]. }
    rewrite H. unfold mem_Z. simpl. rewrite ?Z.eqb_refl. simpl. lia.
  - rewrite (Hfg x) by congruence. unfold mem_Z. simpl.
    destruct (existsb _ l); lia.
Qed.

Definition cast_vote_rows (rows : list (Z * Z * Z)) (submission_id : Z)
  (vs : list (Z * Z)) : list (Z * Z * Z) :=
  fold_left (fun t p => set_vote_rows t submission_id (fst p) (snd p)) vs rows.

Lemma votes_cast_votes d s vs : votes (cast_votes d s vs) = cast_vote_rows (votes d) s vs.
Proof.
  revert d. induction vs as [|p vs IH]; intros d; simpl; [reflexivity|].
  unfold cast_votes in *. simpl. rewrite IH. reflexivity.
Qed.

Definition key_is (s u : Z) (r : Z * Z * Z) : bool :=
  (fst (fst r) =? s) && (snd (fst r) =? u).

(** Splitting the rows of one submission into those of one voter and
    the others. *)
Lemma split_rows rows s u :
  sumZ (map snd (filter (fun r => fst (fst r) =? s) rows)) =
    sumZ (map snd (filter (fun r => fst (fst r) =? s)
                     (filter (fun r => negb ((fst (fst r) =? s) && (snd (fst r) =? u))) rows)))
    + sumZ (map snd (filter (key_is s u) rows)) /\
  length (filter (fun r => fst (fst r) =? s) rows) =
    Nat.add (length (filter (fun r => fst (fst r) =? s)
               (filter (fun r => negb ((fst (fst r) =? s) && (snd (fst r) =? u))) rows)))
     (length (filter (key_is s u) rows)).
Proof.
  unfold key_is.
  induction rows as [|[[a c] v] rows [IH1 IH2]]; simpl; [split; reflexivity|].
  destruct (a =? s) eqn:Ea, (c =? u) eqn:Ec; simpl; rewrite ?Ea, ?Ec; simpl;
    split; simpl; lia.
Qed.

Lemma tally_set_vote rows s u v :
  get_votes_rows (set_vote_rows rows s u v) s =
  (fst (get_votes_rows rows s) - sumZ (map snd (filter (key_is s u) rows)) + v,
   snd (get_votes_rows rows s) - Z.of_nat (length (filter (key_is s u) rows)) + 1).
Proof.
  unfold get_votes_rows, set_vote_rows. simpl.
  rewrite filter_app. simpl. rewrite Z.eqb_refl.
  destruct (split_rows rows s u) as [H1 H2].
  rewrite map_app, sumZ_app, length_app. simpl.
  rewrite H1, H2. f_equal; lia.
Qed.

Lemma key_rows_set_vote t s u u' d :
  filter (key_is s u) (set_vote_rows t s u' d) =
  if u' =? u then [(s, u, d)] else filter (key_is s u) t.
Proof.
  unfold set_vote_rows. rewrite filter_app. simpl. unfold key_is at 2. simpl.
  rewrite Z.eqb_refl. simpl.
  destruct (Z.eqb_spec u' u) as [->|Hne].
  - induction t as [|[[a c] v] t IH]; simpl; [reflexivity|].
    destruct (a =? s) eqn:Ea, (c =? u) eqn:Ec; simpl; auto;
      unfold key_is at 1; simpl; rewrite Ea, Ec; simpl; auto.
  - rewrite app_nil_r.
    induction t as [|[[a c] v] t IH]; simpl; [reflexivity|].
    unfold key_is at 2 3. simpl.
    destruct (a =? s) eqn:Ea, (c =? u') eqn:Ec, (c =? u) eqn:Ec2; simpl;
      unfold key_is at 1; simpl; rewrite ?Ea, ?Ec, ?Ec2; simpl; rewrite ?IH; auto.
    apply Z.eqb_eq in Ec, Ec2. congruence.
Qed.

Lemma key_rows_none rows s u :
  filter (fun r => fst (fst r) =? s) rows = [] -> filter (key_is s u) rows = [].
Proof.
  induction rows as [|[[a c] v] rows IH]; simpl; [reflexivity|].
  unfold key_is at 1. simpl.
  destruct (a =? s); simpl; [discriminate|exact IH].
Qed.

Lemma key_rows_cast rows s u vs :
  filter (fun r => fst (fst r) =? s) rows = [] ->
  filter (key_is s u) (cast_vote_rows rows s vs) =
  match last_vote u vs with Some d => [(s, u, d)] | None => [] end.
Proof.
  intros H0. induction vs as [|p vs IH] using rev_ind.
  - apply key_rows_none. exact H0.
  - unfold cast_vote_rows in *. rewrite fold_left_app. simpl.
    rewrite key_rows_set_vote, last_vote_snoc, IH.
    destruct (fst p =? u); reflexivity.
Qed.

Lemma last_dir_snoc v vs p :
  last_dir v (vs ++ [p]) = if fst p =? v then snd p else last_dir v vs.
Proof. unfold last_dir. rewrite last_vote_snoc. destruct (fst p =? v); reflexivity. Qed.

Lemma tally_rows_cast rows s vs :
  filter (fun r => fst (fst r) =? s) rows = [] ->
  get_votes_rows (cast_vote_rows rows s vs) s = tally_spec vs.
Proof.
  intros H0. induction vs as [|p vs IH] using rev_ind.
  - unfold get_votes_rows. simpl. rewrite H0. reflexivity.
  - unfold cast_vote_rows. rewrite fold_left_app. simpl. fold (cast_vote_rows rows s vs).
    rewrite tally_set_vote, IH, (key_rows_cast _ _ _ _ H0).
    unfold tally_spec. rewrite distinct_voters_snoc, mem_distinct_voters.
    pose proof (last_vote_voted (fst p) vs) as Hv.
    assert (Hupd : forall v, v <> fst p -> last_dir v (vs ++ [p]) = last_dir v vs).
    { intros v Hne. rewrite last_dir_snoc. destruct (Z.eqb_spec (fst p) v); congruence. }
    pose proof (sumZ_map_update (fun u => last_dir u vs) (fun u => last_dir u (vs ++ [p]))
                  (fst p) _ (distinct_voters_nodup vs) Hupd) as Hsum.
    rewrite mem_distinct_voters, last_dir_snoc, Z.eqb_refl in Hsum.
    destruct (last_vote (fst p) vs) as [d|] eqn:E; rewrite <- Hv in *;
      cbn [fst snd map sumZ length] in *.
    + replace (last_dir (fst p) vs) with d in Hsum by (unfold last_dir; rewrite E; reflexivity).
      rewrite Hsum. f_equal; lia.
    + rewrite map_app, sumZ_app, length_app, Hsum. simpl.
      rewrite last_dir_snoc, Z.eqb_refl. f_equal; lia.
Qed.

(** C7: starting from no votes on a submission, after any sequence of
    votes on it the tally's score is the sum of each distinct voter's most
    recent direction and its count is the number of distinct voters; a
    further vote by a voter who already voted leaves the count unchanged
    (last write wins per (submission, voter)). *)
Theorem vote_tally_last_write_wins (d : db) (submission_id : Z) (vs : list (Z * Z)) :
  filter (fun r => fst (fst r) =? submission_id) (votes d) = [] ->
  get_votes (cast_votes d submission_id vs) submission_id = tally_spec vs /\
  (forall voter dir, voted voter vs = true ->
     snd (get_votes (cast_votes d submission_id (vs ++ [(voter, dir)])) submission_id)
     = snd (get_votes (cast_votes d submission_id vs) submission_id)).
Proof.
  intros H0. unfold get_votes. rewrite !votes_cast_votes, !(tally_rows_cast _ _ _ H0).
  split; [reflexivity|].
  intros voter dir Hv. unfold tally_spec. cbn [snd].
  rewrite votes_cast_votes, (tally_rows_cast _ _ _ H0).
  unfold tally_spec. cbn [snd].
  rewrite distinct_voters_snoc, mem_distinct_voters. simpl. rewrite Hv. reflexivity.
Qed.

Lemma vote_tally_last_write_wins_witness :
  filter (fun r => fst (fst r) =? 1) (votes db_guild1) = [] /\
  get_votes (cast_votes db_guild1 1 [(7, 1); (8, 1); (7, -1)]) 1 = (0, 2) /\
  get_votes (cast_votes db_guild1 1 [(7, 1); (8, 1); (7, -1)]) 1
  = tally_spec [(7, 1); (8, 1); (7, -1)].
Proof.
  split; [reflexivity|]. split; [vm_compute; reflexivity|].
  exact (proj1 (vote_tally_last_write_wins db_guild1 1 _ eq_refl)).
Defined.

(** *** The [/submit_code] pipeline *)

(** C5: a request whose code is longer than [MAX_CODE_LENGTH] is turned
    away before intake: no submission row is written (the database and
    the catalog cache are unchanged), no execution is requested, and the
    only effect is one follow-up message among the pre-intake refusals —
    "Code Too Long" as soon as the guild and its form channel are set. *)
Theorem code_too_long_rejected_before_intake (json_loads : string -> option json)
  (max_len : nat) (rq : request) (b : backend) (st : state) :
  (max_len < String.length (rq_code rq))%nat ->
  let '(r, st') := submit_code json_loads max_len rq b st in
  r = Some tt /\ st_db st' = st_db st /\ st_cache st' = st_cache st /\
  (exists title, st_events st' = app (st_events st) [EvFollowup title] /\
                 In title ["Error"; "Form Channel Not Set"; "Code Too Long"]) /\
  (forall gid fc, rq_guild rq = Some gid -> get_form_channel_db (st_db st) gid = Some fc ->
     fc <> 0 -> st_events st' = app (st_events st) [EvFollowup "Code Too Long"]).
Proof.
  intros Hlen. destruct rq as [g u l c r]. cbn [rq_code] in Hlen.
  unfold submit_code. cbn [rq_guild rq_code].
  assert (Hlt : (max_len <? String.length c)%nat = true) by (apply Nat.ltb_lt; exact Hlen).
  destruct g as [gid|].
  - unfold bind, read_db. cbn [fst snd].
    destruct (get_form_channel_db (st_db st) gid) as [fc|] eqn:E.
    + destruct (fc =? 0) eqn:E0.
      * simpl. do 3 (split; [reflexivity|]). split; [eexists; split; [reflexivity|simpl; tauto]|].
        intros gid' fc' Hg Hf Hne. injection Hg as <-. rewrite E in Hf.
        injection Hf as <-. apply Z.eqb_eq in E0. contradiction.
      * rewrite Hlt. simpl. do 3 (split; [reflexivity|]). split; [eexists; split; [reflexivity|simpl; tauto]|].
        reflexivity.
    + simpl. do 3 (split; [reflexivity|]). split; [eexists; split; [reflexivity|simpl; tauto]|].
      intros gid' fc' Hg Hf. injection Hg as <-. congruence.
  - simpl. do 3 (split; [reflexivity|]). split; [eexists; split; [reflexivity|simpl; tauto]|].
    intros gid' fc' Hg. discriminate.
Qed.

Definition long_code : string := string_of_list_ascii (repeat "x"%char 9000).

Lemma code_too_long_rejected_before_intake_witness :
  (8000 < String.length long_code)%nat /\
  submit_code (fun _ => None) 8000 (mkRequest (Some 1) 7 "python" long_code None)
    (mkBackend (Some catalog_py) ReplyTimeout [10] [] true) (empty_state db_guild1)
  = (Some tt, mkState db_guild1 None [EvFollowup "Code Too Long"]).
Proof.
  assert (H : (8000 < String.length long_code)%nat) by (apply Nat.ltb_lt; vm_compute; reflexivity).
  split; [exact H|].
  pose proof (code_too_long_rejected_before_intake (fun _ => None) 8000
    (mkRequest (Some 1) 7 "python" long_code None)
    (mkBackend (Some catalog_py) ReplyTimeout [10] [] true) (empty_state db_guild1) H) as T.
  destruct (submit_code _ _ _ _ _) as [r [d' c' e']].
  destruct T as [-> [Hd [Hc [_ Hev]]]].
  specialize (Hev 1 10 eq_refl eq_refl ltac:(discriminate)).
  simpl in Hd, Hc, Hev. subst. reflexivity.
Defined.

Lemma exec_calls_app l1 l2 : exec_calls (app l1 l2) = (exec_calls l1 + exec_calls l2)%nat.
Proof.
  induction l1 as [|e l1 IH]; simpl; [reflexivity|].
  destruct e; simpl; rewrite ?IH; reflexivity.
Qed.

Lemma posts_app l1 l2 : posts (app l1 l2) = app (posts l1) (posts l2).
Proof.
  induction l1 as [|e l1 IH]; simpl; [reflexivity|].
  destruct e; simpl; rewrite ?IH; reflexivity.
Qed.

(** The request passes the checks made before a row is written. *)
Definition admitted (max_len : nat) (rq : request) (d : db) (fc : Z) : Prop :=
  exists gid, rq_guild rq = Some gid /\ get_form_channel_db d gid = Some fc /\ fc <> 0 /\
              (String.length (rq_code rq) <= max_len)%nat.

(** A request that does not pass them ends with one follow-up message. *)
Lemma submit_code_pre_intake json_loads max_len rq b st :
  (forall fc, ~ admitted max_len rq (st_db st) fc) ->
  exists title,
    submit_code json_loads max_len rq b st
    = (Some tt, mkState (st_db st) (st_cache st) (app (st_events st) [EvFollowup title])).
Proof.
  intros Hna. destruct rq as [g u l c r]. unfold submit_code. cbn [rq_guild rq_code].
  destruct g as [gid|]; [|eexists; reflexivity].
  unfold bind, read_db. cbn [fst snd].
  destruct (get_form_channel_db (st_db st) gid) as [fc|] eqn:E; [|eexists; reflexivity].
  destruct (fc =? 0) eqn:E0; [eexists; reflexivity|].
  destruct (max_len <? String.length c)%nat eqn:El; [eexists; reflexivity|].
  exfalso. apply (Hna fc). exists gid. cbn [rq_guild rq_code].
  split; [reflexivity|]. split; [exact E|]. split; [apply Z.eqb_neq; exact E0|].
  apply Nat.ltb_ge. exact El.
Qed.

(** The state right after intake and the static review. *)
Definition reviewed_state (rq : request) (gid : Z) (reasons : list string) (st : state) : state :=
  let '(sid, d1) := save_submission (st_db st) gid (rq_user rq) (rq_language rq)
                      (rq_code rq) (rq_requirements rq) "reviewing" None None None in
  mkState (update_submission_result d1 sid None (Some (ai_summary_of (rq_code rq) reasons))
             None None)
          (st_cache st) (st_events st).

Lemma submit_code_intake json_loads max_len rq b st gid fc :
  rq_guild rq = Some gid -> get_form_channel_db (st_db st) gid = Some fc -> fc <> 0 ->
  (String.length (rq_code rq) <= max_len)%nat ->
  submit_code json_loads max_len rq b st =
  let sid := next_id (st_db st) in
  let '(risk_score, reasons) := static_risk_check (rq_code rq) in
  let st1 := reviewed_state rq gid reasons st in
  if 50 <=? risk_score then
    (Some tt,
     mkState (update_submission_result (st_db st1) sid (Some "rejected") None None None)
             (st_cache st)
             (app (st_events st) [EvFollowup "Submission Rejected";
                                  EvDM ("Submission #" ++ str_of_Z sid ++ " Rejected")]))
  else resolve_and_execute json_loads sid fc (rq_language rq) (rq_code rq)
         (detect_external_packages (rq_code rq) (rq_language rq))
         (req_list (rq_requirements rq)) b st1.
Proof.
  intros Hg Hf Hfc Hl. destruct rq as [g u l c r]. cbn [rq_guild rq_code] in *. subst g.
  unfold submit_code. cbn [rq_guild rq_code].
  unfold bind at 1, read_db. cbn [fst snd]. rewrite Hf.
  rewrite (proj2 (Z.eqb_neq fc 0) Hfc).
  replace (max_len <? String.length c)%nat with false by (symmetry; apply Nat.ltb_ge; exact Hl).
  destruct (static_risk_check c) as [score reasons].
  destruct st as [d cache evs]. unfold reviewed_state.
  destruct (50 <=? score); [|reflexivity].
  unfold bind, update, with_db, emit. cbn [st_db st_cache st_events fst snd].
  unfold save_submission. cbn.
  rewrite <- app_assoc. reflexivity.
Qed.

Lemma admitted_dec max_len rq d :
  {fc | admitted max_len rq d fc} + {forall fc, ~ admitted max_len rq d fc}.
Proof.
  destruct (rq_guild rq) as [gid|] eqn:Hg.
  2: { right. intros fc [gid' [Hg' _]]. congruence. }
  destruct (get_form_channel_db d gid) as [fc|] eqn:Hf.
  2: { right. intros fc' [gid' [Hg' [Hf' _]]]. rewrite Hg in Hg'. injection Hg' as <-.
       congruence. }
  destruct (Z.eq_dec fc 0) as [H0|H0].
  { right. intros fc' [gid' [Hg' [Hf' [Hfc' _]]]]. rewrite Hg in Hg'. injection Hg' as <-.
    congruence. }
  destruct (le_lt_dec (String.length (rq_code rq)) max_len) as [Hl|Hl].
  - left. exists fc, gid. auto.
  - right. intros fc' [gid' [_ [_ [_ Hl']]]]. lia.
Qed.

Lemma apply_update_none s : apply_update None None None None s = s.
Proof. destruct s; reflexivity. Qed.

Lemma get_submission_update d sid status ai_summary stdout stderr :
  get_submission (update_submission_result d sid status ai_summary stdout stderr) sid =
  option_map (apply_update status ai_summary stdout stderr) (get_submission d sid).
Proof.
  assert (Hmap : forall l,
    find (fun r => fst r =? sid)
      (map (fun r => if fst r =? sid
                     then (fst r, apply_update status ai_summary stdout stderr (snd r))
                     else r) l) =
    option_map (fun r => (fst r, apply_update status ai_summary stdout stderr (snd r)))
      (find (fun r => fst r =? sid) l)).
  { induction l as [|[k v] l IH]; simpl; [reflexivity|].
    destruct (k =? sid) eqn:E; simpl; rewrite ?E; auto. }
  unfold get_submission, update_submission_result.
  destruct status, ai_summary, stdout, stderr;
    try (cbn [submissions]; rewrite Hmap;
         destruct (find _ (submissions d)) as [[k v]|]; reflexivity).
  destruct (find _ (submissions d)) as [[k v]|]; simpl; rewrite ?apply_update_none;
    reflexivity.
Qed.

Lemma get_submission_reviewed rq gid reasons st :
  get_submission (st_db (reviewed_state rq gid reasons st)) (next_id (st_db st)) =
  Some (mkSubmission gid (rq_user rq) (rq_language rq) (rq_code rq) (rq_requirements rq)
          "reviewing" (Some (ai_summary_of (rq_code rq) reasons)) None None).
Proof.
  unfold reviewed_state, save_submission. cbn [st_db].
  rewrite get_submission_update. unfold get_submission. simpl.
  rewrite Z.eqb_refl. reflexivity.
Qed.

(** C1: a submission whose risk score is at least 50 (the bound is
    inclusive) is never executed — no execution request is ever issued
    for it — and, once admitted (guild and form channel set, code not too
    long), its row ends with status "rejected". *)
Theorem high_risk_rejected_without_execution (json_loads : string -> option json)
  (max_len : nat) (rq : request) (b : backend) (st : state) :
  50 <= fst (static_risk_check (rq_code rq)) ->
  let '(r, st') := submit_code json_loads max_len rq b st in
  r = Some tt /\ exec_calls (st_events st') = exec_calls (st_events st) /\
  (forall fc, admitted max_len rq (st_db st) fc ->
     option_map sub_status (new_submission st st') = Some "rejected").
Proof.
  intros Hs. destruct (admitted_dec max_len rq (st_db st)) as [[fc Ha]|Hna].
  - destruct Ha as [gid [Hg [Hf [Hfc Hl]]]].
    rewrite (submit_code_intake _ _ _ _ _ _ _ Hg Hf Hfc Hl). cbv zeta.
    destruct (static_risk_check (rq_code rq)) as [score reasons] eqn:Es. simpl in Hs.
    rewrite (proj2 (Z.leb_le 50 score) Hs). cbv beta iota.
    split; [reflexivity|]. split.
    + cbn [st_events]. rewrite exec_calls_app. simpl. lia.
    + intros fc' _. unfold new_submission. cbn [st_db].
      rewrite get_submission_update, get_submission_reviewed. reflexivity.
  - destruct (submit_code_pre_intake json_loads max_len rq b st Hna) as [t Ht].
    rewrite Ht. cbv beta iota. split; [reflexivity|]. split.
    + cbn [st_events]. rewrite exec_calls_app. simpl. lia.
    + intros fc Ha. exfalso. exact (Hna fc Ha).
Qed.

(** The spec's scenario: [exec(] and a 60-character base64-like run
    score 30 + 20 = 50, and the submission is rejected. *)
Lemma high_risk_rejected_without_execution_witness :
  50 <= fst (static_risk_check ("exec( " ++ sixty_A)) /\
  (let '(r, st') := submit_code (fun _ => None) 8000
                      (mkRequest (Some 1) 7 "python" ("exec( " ++ sixty_A) None)
                      (mkBackend (Some catalog_py) ReplyTimeout [10] [] true)
                      (empty_state db_guild1) in
   r = Some tt /\ exec_calls (st_events st') = exec_calls (st_events (empty_state db_guild1)) /\
   (forall fc, admitted 8000 (mkRequest (Some 1) 7 "python" ("exec( " ++ sixty_A) None)
                 (st_db (empty_state db_guild1)) fc ->
      option_map sub_status (new_submission (empty_state db_guild1) st') = Some "rejected")).
Proof.
  assert (H : 50 <= fst (static_risk_check ("exec( " ++ sixty_A))) by (vm_compute; discriminate).
  split; [exact H|].
  exact (high_risk_rejected_without_execution (fun _ => None) 8000
           (mkRequest (Some 1) 7 "python" ("exec( " ++ sixty_A) None)
           (mkBackend (Some catalog_py) ReplyTimeout [10] [] true) (empty_state db_guild1) H).
Defined.

(** *** Failed executions *)

(** The reason recorded when the Judge0 call fails: a timeout, any other
    exception, or a body [json.loads] rejects. *)
Definition failure_reason (json_loads : string -> option json) (r : exec_reply)
  : option string :=
  match r with
  | ReplyTimeout => Some "Timeout contacting Judge0"
  | ReplyException m => Some m
  | ReplyBody http_status text =>
      match json_loads text with
      | None => Some (non_json_error http_status text)
      | Some _ => None
      end
  end.

Lemma execute_caught_failure json_loads lid code b st msg :
  failure_reason json_loads (b_exec b) = Some msg ->
  execute_caught json_loads lid code b st =
  (Some (JObj [("error", JStr msg)]),
   mkState (st_db st) (st_cache st) (app (st_events st) [EvExecute lid code])).
Proof.
  intros H. unfold execute_caught, submit_to_judge0, bind, emit, ask, ret.
  cbn [st_db st_cache st_events].
  destruct (b_exec b) as [h t| |m]; simpl in H.
  - destruct (json_loads t); [discriminate|]. injection H as <-. reflexivity.
  - injection H as <-. reflexivity.
  - injection H as <-. reflexivity.
Qed.

Lemma find_language_id_shape u b st :
  exists res st', find_language_id u b st = (Some res, st') /\
    st_db st' = st_db st /\
    (st_events st' = st_events st \/
     st_events st' = app (st_events st) [EvFetchLanguages]).
Proof.
  unfold find_language_id. cbv zeta.
  destruct (String.eqb (lower (strip u)) "").
  { do 2 eexists. split; [reflexivity|]. auto. }
  destruct (isdigit (lower (strip u))).
  { do 2 eexists. split; [reflexivity|]. auto. }
  destruct st as [d [c|] evs]; simpl; do 2 eexists; (split; [reflexivity|]); simpl; auto.
Qed.

Lemma bind_run {A B} (m : M A) (k : A -> M B) b s :
  bind m k b s = match m b s with (Some a, s') => k a b s' | (None, s') => (None, s') end.
Proof. reflexivity. Qed.

Lemma bind_ask {B} (k : backend -> M B) b s : bind ask k b s = k b b s.
Proof. reflexivity. Qed.

Lemma emit_run e b s : emit e b s = (Some tt, mkState (st_db s) (st_cache s) (st_events s ++ [e])).
Proof. reflexivity. Qed.

(** The [if "error" in result:] branch on the error dictionary of a
    failed call: the row is "exec_failed" with the reason as stderr
    whatever the sends do, no execution is requested, and at most one
    post is made, an "Execution failed" post to the form channel, and
    only when [bot.get_channel] finds that channel. *)
Lemma exec_failed_path_run sid fc language msg b s :
  let s' := snd (exec_failed_path sid fc language [("error", JStr msg)] b s) in
  st_db s' = update_submission_result (st_db s) sid (Some "exec_failed") None None (Some msg) /\
  exec_calls (st_events s') = exec_calls (st_events s) /\
  exists p, posts (st_events s') = app (posts (st_events s)) p /\
    (p = [] \/ (p = [(fc, "Execution failed")] /\ mem_Z fc (b_channels b) = true)).
Proof.
  destruct s as [d c evs]. cbv zeta.
  assert (Hj : jget "error" [("error", JStr msg)] = Some (JStr msg)) by reflexivity.
  unfold exec_failed_path. rewrite Hj. cbn [py_str_opt py_str].
  unfold update, with_db, followup_send, channel_found, error_value,
    channel_send, bind, emit, ask, ret, raise.
  cbn [fst snd truthy st_db st_cache st_events].
  destruct (field_ok (take 1500 msg)); cbn [fst snd st_db st_events].
  2: { split; [reflexivity|]. split; [reflexivity|]. exists []. rewrite app_nil_r. auto. }
  destruct (mem_Z fc (b_channels b)) eqn:Ef; cbn [fst snd st_db st_events].
  2: { split; [reflexivity|]. rewrite exec_calls_app, posts_app. simpl.
       split; [lia|]. exists []. auto. }
  destruct (negb (msg =? "")%string); cbn [fst snd st_db st_events];
  destruct (mem_Z fc (b_forums b)); cbn [fst snd st_db st_events];
  try destruct (field_ok language && field_ok _); cbn [fst snd st_db st_events];
  (split; [reflexivity|]); rewrite ?exec_calls_app, ?posts_app; simpl;
  (split; [lia|]);
  first [ solve [exists []; rewrite ?app_nil_r; auto]
        | solve [exists [(fc, "Execution failed")]; rewrite <- ?app_assoc; auto] ].
Qed.

(** Everything after the static review, when the Judge0 call fails:
    either no execution is requested (the language is not resolved, and
    the row may be "lang_not_found", or the preview could not be sent)
    or exactly one is, and the row is then "exec_failed" with the reason
    as stderr, with at most an "Execution failed" post to the form
    channel, made only when the channel is found. *)
Lemma resolve_and_execute_failure json_loads sid fc language code detected reqs b st msg :
  failure_reason json_loads (b_exec b) = Some msg ->
  let st' := snd (resolve_and_execute json_loads sid fc language code detected reqs b st) in
  (exec_calls (st_events st') = exec_calls (st_events st) /\
   (st_db st' = st_db st \/
    st_db st' = update_submission_result (st_db st) sid (Some "lang_not_found") None None None))
  \/
  (exec_calls (st_events st') = S (exec_calls (st_events st)) /\
   st_db st' = update_submission_result (st_db st) sid (Some "exec_failed") None None (Some msg)
   /\ exists p, posts (st_events st') = app (posts (st_events st)) p /\
        (p = [] \/ (p = [(fc, "Execution failed")] /\ mem_Z fc (b_channels b) = true))).
Proof.
  intros Hmsg. cbv zeta.
  destruct (find_language_id_shape language b st) as [res [st1 [Hfind [Hdb Hev]]]].
  assert (Hx1 : exec_calls (st_events st1) = exec_calls (st_events st)).
  { destruct Hev as [-> | ->]; rewrite ?exec_calls_app; simpl; lia. }
  destruct (resolve_and_execute json_loads sid fc language code detected reqs b st)
    as [r st'] eqn:ER.
  cbn [snd]. unfold resolve_and_execute in ER. rewrite bind_run, Hfind in ER.
  destruct res as [lid|].
  - unfold followup_send in ER.
    destruct (field_ok (str_of_Z lid) && field_ok (detected_value detected) && list_field_ok reqs).
    2: { cbn [bind raise] in ER. injection ER as _ <-. left.
         split; [exact Hx1|]. left. exact Hdb. }
    rewrite bind_run, emit_run, bind_run in ER.
    rewrite (execute_caught_failure _ _ _ _ _ _ Hmsg) in ER.
    cbn [error_in existsb fst String.eqb] in ER.
    rewrite bind_run in ER. cbn [ret orb] in ER.
    match type of ER with
    | context [if ?c then exec_failed_path _ _ _ _ else _] =>
        replace c with true in ER by reflexivity
    end.
    change (if true then ?x else _) with x in ER.
    right.
    match type of ER with
    | exec_failed_path _ _ _ _ _ ?s2 = _ =>
        destruct (exec_failed_path_run sid fc language msg b s2) as [Hd [Hx [p [Hp Hpp]]]]
    end.
    rewrite ER in Hd, Hx, Hp. cbn [snd st_db st_events] in Hd, Hx, Hp.
    rewrite Hdb in Hd. rewrite !exec_calls_app in Hx. rewrite !posts_app in Hp.
    split; [rewrite Hx; simpl; lia|]. split; [exact Hd|].
    exists p. split; [|exact Hpp]. rewrite Hp. simpl.
    destruct Hev as [-> | ->]; rewrite ?posts_app; simpl; rewrite ?app_nil_r; reflexivity.
  - unfold fetch_judge0_languages, followup_send, update, with_db, emit, bind, ask, ret, raise
      in ER.
    destruct st1 as [d1 c1 e1]. cbn [st_db st_cache st_events] in *. subst d1.
    cbn [fst snd] in ER.
    left. destruct (description_ok _); injection ER as _ <-; cbn [st_db st_events];
      rewrite ?exec_calls_app; simpl; (split; [lia|right; reflexivity]).
Qed.

(** Two backends that answer everything but the Judge0 submission alike. *)
Definition same_env (b1 b2 : backend) : Prop :=
  b_languages b1 = b_languages b2 /\ b_channels b1 = b_channels b2 /\
  b_forums b1 = b_forums b2 /\ b_render_ok b1 = b_render_ok b2.

Lemma bind_ext {A B} (m : M A) (k : A -> M B) b1 b2 st :
  m b1 st = m b2 st -> (forall a st', k a b1 st' = k a b2 st') ->
  bind m k b1 st = bind m k b2 st.
Proof.
  intros Hm Hk. unfold bind. rewrite Hm.
  destruct (m b2 st) as [[a|] st']; [apply Hk|reflexivity].
Qed.

Lemma fetch_judge0_languages_env b1 b2 st :
  same_env b1 b2 -> fetch_judge0_languages b1 st = fetch_judge0_languages b2 st.
Proof.
  intros [Hl _]. unfold fetch_judge0_languages, bind, emit, ask, ret. rewrite Hl. reflexivity.
Qed.

Lemma find_language_id_env u b1 b2 st :
  same_env b1 b2 -> find_language_id u b1 st = find_language_id u b2 st.
Proof.
  intros He. unfold find_language_id. cbv zeta.
  destruct (String.eqb _ _); [reflexivity|]. destruct (isdigit _); [reflexivity|].
  apply bind_ext; [reflexivity|]. intros cached st1.
  apply bind_ext; [|reflexivity].
  destruct cached; [reflexivity|].
  apply bind_ext; [apply fetch_judge0_languages_env; exact He|]. reflexivity.
Qed.

Lemma channel_found_env fc b1 b2 st :
  same_env b1 b2 -> channel_found fc b1 st = channel_found fc b2 st.
Proof. intros [_ [Hc _]]. unfold channel_found, bind, ask, ret. rewrite Hc. reflexivity. Qed.

Lemma followup_send_env title ok b1 b2 st :
  followup_send title ok b1 st = followup_send title ok b2 st.
Proof. unfold followup_send. destruct ok; reflexivity. Qed.

Lemma channel_send_env fc title status ok b1 b2 st :
  same_env b1 b2 -> channel_send fc title status ok b1 st = channel_send fc title status ok b2 st.
Proof.
  intros [_ [_ [Hf _]]]. unfold channel_send, bind, ask. rewrite Hf.
  destruct (mem_Z fc (b_forums b2)); [reflexivity|destruct ok; reflexivity].
Qed.

Lemma error_value_env v b1 b2 st : error_value v b1 st = error_value v b2 st.
Proof.
  unfold error_value. destruct v as [v|]; [destruct (truthy v); [destruct v|]|];
    reflexivity.
Qed.

Lemma exec_failed_path_env sid fc language kvs b1 b2 st :
  same_env b1 b2 ->
  exec_failed_path sid fc language kvs b1 st = exec_failed_path sid fc language kvs b2 st.
Proof.
  intros He. unfold exec_failed_path. cbv zeta.
  apply bind_ext; [reflexivity|]. intros ? st1; cbv beta.
  apply bind_ext; [apply followup_send_env|]. intros ? st2; cbv beta.
  apply bind_ext; [apply channel_found_env; exact He|]. intros found st3; cbv beta.
  destruct found; [|reflexivity].
  apply bind_ext; [apply error_value_env|]. intros ? st4.
  apply channel_send_env. exact He.
Qed.

Lemma text_or_empty_env v b1 b2 st : text_or_empty v b1 st = text_or_empty v b2 st.
Proof.
  unfold text_or_empty. destruct v as [v|]; [destruct (truthy v); [destruct v|]|];
    reflexivity.
Qed.

Lemma compile_text_env v b1 b2 st : compile_text v b1 st = compile_text v b2 st.
Proof.
  unfold compile_text. destruct v as [v|]; [destruct (truthy v); [destruct v|]|];
    reflexivity.
Qed.

Lemma completed_path_env sid fc language detected reqs kvs b1 b2 st :
  same_env b1 b2 ->
  completed_path sid fc language detected reqs kvs b1 st =
  completed_path sid fc language detected reqs kvs b2 st.
Proof.
  intros He. unfold completed_path. cbv zeta.
  apply bind_ext; [apply text_or_empty_env|]. intros so st1.
  apply bind_ext; [apply text_or_empty_env|]. intros se st2.
  apply bind_ext; [apply compile_text_env|]. intros co st3.
  rewrite !bind_ask. destruct He as (Hl & Hc & Hf & Hr). rewrite Hr.
  destruct (negb (b_render_ok b2)); [reflexivity|].
  apply bind_ext; [reflexivity|]. intros ? st5; cbv beta.
  apply bind_ext; [apply channel_found_env; repeat split; assumption|]. intros found st6; cbv beta.
  destruct found; [|reflexivity].
  apply bind_ext; [apply channel_send_env; repeat split; assumption|]. reflexivity.
Qed.

(** Two failing Judge0 replies with the same reason lead to the same run. *)
Lemma resolve_and_execute_same_failure json_loads sid fc language code detected reqs b1 b2 st msg :
  same_env b1 b2 ->
  failure_reason json_loads (b_exec b1) = Some msg ->
  failure_reason json_loads (b_exec b2) = Some msg ->
  resolve_and_execute json_loads sid fc language code detected reqs b1 st =
  resolve_and_execute json_loads sid fc language code detected reqs b2 st.
Proof.
  intros He H1 H2. unfold resolve_and_execute.
  apply bind_ext; [apply find_language_id_env; exact He|]. intros [lid|] st1.
  - apply bind_ext; [apply followup_send_env|]. intros ? st2; cbv beta.
    apply bind_ext.
    { rewrite (execute_caught_failure _ _ _ _ _ _ H1),
              (execute_caught_failure _ _ _ _ _ _ H2). reflexivity. }
    intros result st3.
    apply bind_ext; [destruct (error_in result); reflexivity|]. intros he st4.
    destruct result; try reflexivity. destruct he.
    + apply exec_failed_path_env; exact He.
    + apply completed_path_env; exact He.
  - apply bind_ext; [apply fetch_judge0_languages_env; exact He|]. intros ? st2; cbv beta.
    apply bind_ext; [reflexivity|]. intros ? st3. apply followup_send_env.
Qed.

Lemma submit_code_same_failure json_loads max_len rq b1 b2 st msg :
  same_env b1 b2 ->
  failure_reason json_loads (b_exec b1) = Some msg ->
  failure_reason json_loads (b_exec b2) = Some msg ->
  submit_code json_loads max_len rq b1 st = submit_code json_loads max_len rq b2 st.
Proof.
  intros He H1 H2. unfold submit_code.
  destruct (rq_guild rq) as [gid|]; [|reflexivity].
  apply bind_ext; [reflexivity|]. intros fco st1.
  destruct fco as [fc|]; [|reflexivity].
  destruct (fc =? 0); [reflexivity|].
  destruct (max_len <? String.length (rq_code rq))%nat; [reflexivity|].
  apply bind_ext; [reflexivity|]. intros sid st2.
  destruct (static_risk_check (rq_code rq)) as [score reasons].
  apply bind_ext; [reflexivity|]. intros ? st3; cbv beta.
  destruct (50 <=? score); [reflexivity|].
  eapply resolve_and_execute_same_failure; eassumption.
Qed.

(** An admitted submission whose Judge0 call fails: the row never reaches
    "completed"; if the execution was requested, the row is
    "exec_failed" with the reason as stderr, and the only post the run
    may make is an "Execution failed" post to the form channel, when the
    bot finds that channel. *)
Lemma submit_code_failure json_loads max_len rq b st msg fc :
  failure_reason json_loads (b_exec b) = Some msg ->
  admitted max_len rq (st_db st) fc ->
  let st' := snd (submit_code json_loads max_len rq b st) in
  option_map sub_status (new_submission st st') <> Some "completed" /\
  (exec_calls (st_events st') <> exec_calls (st_events st) ->
     exec_calls (st_events st') = S (exec_calls (st_events st)) /\
     option_map sub_status (new_submission st st') = Some "exec_failed" /\
     option_map sub_run_stderr (new_submission st st') = Some (Some msg) /\
     exists p, posts (st_events st') = app (posts (st_events st)) p /\
       (p = [] \/ (p = [(fc, "Execution failed")] /\ mem_Z fc (b_channels b) = true))).
Proof.
  intros Hmsg [gid [Hg [Hf [Hfc Hl]]]]. cbv zeta.
  rewrite (submit_code_intake _ _ _ _ _ _ _ Hg Hf Hfc Hl). cbv zeta.
  destruct (static_risk_check (rq_code rq)) as [score reasons].
  destruct (50 <=? score).
  - unfold new_submission. cbn [snd st_db st_events].
    rewrite get_submission_update, get_submission_reviewed. simpl.
    split; [discriminate|]. rewrite exec_calls_app. simpl. intros H. lia.
  - pose proof (resolve_and_execute_failure json_loads (next_id (st_db st)) fc
                  (rq_language rq) (rq_code rq)
                  (detect_external_packages (rq_code rq) (rq_language rq))
                  (req_list (rq_requirements rq)) b (reviewed_state rq gid reasons st) msg Hmsg)
      as HR. cbv zeta in HR.
    destruct (resolve_and_execute _ _ _ _ _ _ _ _ _) as [r st'].
    cbn [snd] in HR |- *.
    assert (Hev : st_events (reviewed_state rq gid reasons st) = st_events st).
    { unfold reviewed_state. destruct (save_submission _ _ _ _ _ _ _ _ _ _). reflexivity. }
    rewrite Hev in HR.
    unfold new_submission.
    destruct HR as [[Hx [Hd | Hd]] | [Hx [Hd Hp]]]; rewrite Hd;
      rewrite ?get_submission_update, get_submission_reviewed; simpl.
    + split; [discriminate|]. intros H. exfalso. exact (H Hx).
    + split; [discriminate|]. intros H. exfalso. exact (H Hx).
    + split; [discriminate|]. intros _. repeat split; assumption.
Qed.

(** C3: a Judge0 reply whose body [json.loads] rejects is handled exactly
    as a transport failure carrying the diagnostic
    "Judge0 returned non-JSON response (status ...): ..." (the two runs
    are equal, whatever the sends to Discord do), and an admitted
    submission never ends "completed": once the execution is requested,
    the row is "exec_failed" with that diagnostic as stderr. *)
Theorem non_json_reply_is_exec_failure json_loads max_len rq b st http_status body fc :
  b_exec b = ReplyBody http_status body ->
  json_loads body = None ->
  admitted max_len rq (st_db st) fc ->
  submit_code json_loads max_len rq b st =
  submit_code json_loads max_len rq
    (mkBackend (b_languages b) (ReplyException (non_json_error http_status body))
               (b_channels b) (b_forums b) (b_render_ok b)) st /\
  (let st' := snd (submit_code json_loads max_len rq b st) in
   option_map sub_status (new_submission st st') <> Some "completed" /\
   (exec_calls (st_events st') <> exec_calls (st_events st) ->
      option_map sub_status (new_submission st st') = Some "exec_failed" /\
      option_map sub_run_stderr (new_submission st st') =
      Some (Some (non_json_error http_status body)))).
Proof.
  intros Hb Hj Ha.
  assert (Hmsg : failure_reason json_loads (b_exec b) = Some (non_json_error http_status body)).
  { rewrite Hb. simpl. rewrite Hj. reflexivity. }
  split.
  - apply (submit_code_same_failure _ _ _ _ _ _ (non_json_error http_status body)).
    + repeat split; reflexivity.
    + exact Hmsg.
    + reflexivity.
  - pose proof (submit_code_failure json_loads max_len rq b st _ fc Hmsg Ha) as H.
    cbv zeta in H |- *. destruct H as [Hc Hx]. split; [exact Hc|].
    intros Hn. destruct (Hx Hn) as [_ [Hs [He _]]]. split; assumption.
Qed.

(** A 500 reply with the body [oops], no JSON parser accepting it. *)
Lemma non_json_reply_is_exec_failure_witness :
  let rq := mkRequest (Some 1) 7 "python" "print(1)" None in
  let b := mkBackend (Some catalog_py) (ReplyBody 500 "oops") [10] [] true in
  (b_exec b = ReplyBody 500 "oops" /\ (fun _ : string => @None json) "oops" = None /\
   admitted 8000 rq (st_db (empty_state db_guild1)) 10) /\
  (submit_code (fun _ => None) 8000 rq b (empty_state db_guild1) =
   submit_code (fun _ => None) 8000 rq
     (mkBackend (b_languages b) (ReplyException (non_json_error 500 "oops")) (b_channels b)
        (b_forums b) (b_render_ok b))
     (empty_state db_guild1) /\
   (let st' := snd (submit_code (fun _ => None) 8000 rq b (empty_state db_guild1)) in
    option_map sub_status (new_submission (empty_state db_guild1) st') <> Some "completed" /\
    (exec_calls (st_events st') <> exec_calls (st_events (empty_state db_guild1)) ->
       option_map sub_status (new_submission (empty_state db_guild1) st') = Some "exec_failed" /\
       option_map sub_run_stderr (new_submission (empty_state db_guild1) st') =
       Some (Some (non_json_error 500 "oops"))))).
Proof.
  cbv zeta.
  assert (Ha : admitted 8000 (mkRequest (Some 1) 7 "python" "print(1)" None)
                 (st_db (empty_state db_guild1)) 10).
  { exists 1. split; [reflexivity|]. split; [reflexivity|]. split; [discriminate|].
    apply Nat.ltb_ge. vm_compute. reflexivity. }
  split; [split; [reflexivity|split; [reflexivity|exact Ha]]|].
  exact (non_json_reply_is_exec_failure (fun _ => None) 8000
           (mkRequest (Some 1) 7 "python" "print(1)" None)
           (mkBackend (Some catalog_py) (ReplyBody 500 "oops") [10] [] true)
           (empty_state db_guild1) 500 "oops" 10 eq_refl eq_refl Ha).
Defined.





(** ** Further properties of the code *)

(** *** The SQLite helpers *)

Lemma find_filter_other {A} (p q : A -> bool) l :
  (forall x, p x = true -> q x = true) ->
  find p (filter q l) = find p l.
Proof.
  intros H. induction l as [|x l IH]; simpl; [reflexivity|].
  destruct (q x) eqn:Eq; simpl.
  - destruct (p x); [reflexivity|exact IH].
  - destruct (p x) eqn:Ep; [rewrite (H x Ep) in Eq; discriminate|exact IH].
Qed.

Lemma find_filter_none {A} (p q : A -> bool) l :
  (forall x, p x = true -> q x = false) -> find p (filter q l) = None.
Proof.
  intros H. induction l as [|x l IH]; simpl; [reflexivity|].
  destruct (q x) eqn:Eq; simpl; [|exact IH].
  destruct (p x) eqn:Ep; [rewrite (H x Ep) in Eq; discriminate|exact IH].
Qed.

Lemma find_app {A} (p : A -> bool) l1 l2 :
  find p (l1 ++ l2) = match find p l1 with Some x => Some x | None => find p l2 end.
Proof. induction l1 as [|x l1 IH]; simpl; [reflexivity|]. destruct (p x); auto. Qed.

(** [set_form_channel_db] then [get_form_channel_db]: the guild that was
    set reads back the new channel, every other guild its old one. *)
Theorem set_form_channel_db_lookup d guild_id channel_id g :
  get_form_channel_db (set_form_channel_db d guild_id channel_id) g =
  if g =? guild_id then Some channel_id else get_form_channel_db d g.
Proof.
  unfold get_form_channel_db, set_form_channel_db. cbn [guild_config].
  rewrite find_app. destruct (Z.eqb_spec g guild_id) as [->|Hne].
  - rewrite find_filter_none; [simpl; rewrite Z.eqb_refl; reflexivity|].
    intros [k v] Hk. simpl in *. rewrite Hk. reflexivity.
  - rewrite find_filter_other.
    + destruct (find _ (guild_config d)) as [[k v]|]; [reflexivity|].
      simpl. destruct (Z.eqb_spec guild_id g); [congruence|reflexivity].
    + intros [k v] Hk. simpl in *. apply Z.eqb_eq in Hk. subst.
      destruct (Z.eqb_spec g guild_id); [congruence|reflexivity].
Qed.

Lemma find_map_update_other (sid sid' : Z) (f : submission -> submission) l :
  sid' <> sid ->
  find (fun r => fst r =? sid')
       (map (fun r => if fst r =? sid then (fst r, f (snd r)) else r) l) =
  find (fun r => fst r =? sid') l.
Proof.
  intros Hne. induction l as [|[k v] l IH]; simpl; [reflexivity|].
  destruct (Z.eqb_spec k sid) as [->|Hk]; simpl.
  - rewrite (proj2 (Z.eqb_neq sid sid')) by congruence. exact IH.
  - destruct (k =? sid'); [reflexivity|exact IH].
Qed.

Lemma update_submission_result_other d sid status ai_summary stdout stderr sid' :
  sid' <> sid ->
  get_submission (update_submission_result d sid status ai_summary stdout stderr) sid' =
  get_submission d sid'.
Proof.
  intros Hne. unfold update_submission_result.
  destruct status, ai_summary, stdout, stderr; try reflexivity;
    unfold get_submission; cbn [submissions]; rewrite find_map_update_other by exact Hne;
    reflexivity.
Qed.

Lemma update_submission_result_tables d sid status ai_summary stdout stderr :
  let d' := update_submission_result d sid status ai_summary stdout stderr in
  guild_config d' = guild_config d /\ next_id d' = next_id d /\ votes d' = votes d.
Proof.
  unfold update_submission_result. destruct status, ai_summary, stdout, stderr; simpl; auto.
Qed.

(** [update_submission_result] writes only the given columns of the row
    with the given id: that row gets them, every other row and the other
    tables are left as they were. *)
Theorem update_submission_result_only_target d sid status ai_summary stdout stderr sid' :
  let d' := update_submission_result d sid status ai_summary stdout stderr in
  get_submission d' sid' =
  (if sid' =? sid
   then option_map (apply_update status ai_summary stdout stderr) (get_submission d sid)
   else get_submission d sid') /\
  guild_config d' = guild_config d /\ next_id d' = next_id d /\ votes d' = votes d.
Proof.
  cbv zeta. split; [|apply update_submission_result_tables].
  destruct (Z.eqb_spec sid' sid) as [->|Hne].
  - apply get_submission_update.
  - apply update_submission_result_other. exact Hne.
Qed.

(** *** Votes *)

Lemma filter_filter_same {A} (f : A -> bool) l : filter f (filter f l) = filter f l.
Proof.
  induction l as [|x l IH]; simpl; [reflexivity|].
  destruct (f x) eqn:E; simpl; rewrite ?E, ?IH; reflexivity.
Qed.

(** Two [set_vote] calls for the same (submission, user) pair leave the
    store exactly as the second one alone would: the later vote replaces
    the earlier one. *)
Theorem set_vote_last_write_wins d submission_id user_id v1 v2 :
  set_vote (set_vote d submission_id user_id v1) submission_id user_id v2 =
  set_vote d submission_id user_id v2.
Proof.
  unfold set_vote. cbn [guild_config submissions next_id votes]. f_equal.
  unfold set_vote_rows. rewrite filter_app. simpl.
  rewrite !Z.eqb_refl. simpl. rewrite filter_filter_same, app_nil_r. reflexivity.
Qed.

(** A vote on one submission changes no other submission's tally. *)
Theorem set_vote_other_tally d submission_id user_id vote s :
  s <> submission_id ->
  get_votes (set_vote d submission_id user_id vote) s = get_votes d s.
Proof.
  intros Hne. unfold get_votes, get_votes_rows, set_vote, set_vote_rows. cbn [votes].
  rewrite filter_app. simpl.
  rewrite (proj2 (Z.eqb_neq submission_id s)) by congruence. rewrite app_nil_r.
  assert (H : forall rows : list (Z * Z * Z),
    filter (fun r => fst (fst r) =? s)
      (filter (fun r => negb ((fst (fst r) =? submission_id) && (snd (fst r) =? user_id))) rows)
    = filter (fun r => fst (fst r) =? s) rows).
  { induction rows as [|[[a u] v] rows IH]; simpl; [reflexivity|].
    destruct (Z.eqb_spec a submission_id) as [->|Ha]; simpl.
    - rewrite (proj2 (Z.eqb_neq submission_id s)) by congruence.
      destruct (u =? user_id); simpl;
        [|rewrite (proj2 (Z.eqb_neq submission_id s)) by congruence]; exact IH.
    - destruct (a =? s); simpl; rewrite IH; reflexivity. }
  rewrite H. reflexivity.
Qed.

Lemma set_vote_other_tally_witness :
  2 <> 1 /\
  get_votes (set_vote (mkDb [] [] 3 [(2, 5, 1); (1, 7, -1)]) 1 7 1) 2 =
  get_votes (mkDb [] [] 3 [(2, 5, 1); (1, 7, -1)]) 2.
Proof.
  assert (H : 2 <> 1) by discriminate.
  split; [exact H|]. exact (set_vote_other_tally (mkDb [] [] 3 [(2, 5, 1); (1, 7, -1)]) 1 7 1 2 H).
Defined.

Definition unit_votes (rows : list (Z * Z * Z)) : Prop :=
  forall r, In r rows -> snd r = 1 \/ snd r = -1.

Lemma unit_votes_set_vote rows s u v :
  unit_votes rows -> (v = 1 \/ v = -1) -> unit_votes (set_vote_rows rows s u v).
Proof.
  unfold unit_votes, set_vote_rows. intros H Hv r Hr.
  apply in_app_or in Hr as [Hr|Hr].
  - apply filter_In in Hr as [Hr _]. exact (H r Hr).
  - destruct Hr as [<-|[]]. exact Hv.
Qed.

Lemma unit_votes_bound rows :
  unit_votes rows -> Z.abs (sumZ (map snd rows)) <= Z.of_nat (length rows).
Proof.
  unfold unit_votes. induction rows as [|r rows IH]; simpl; intros H; [lia|].
  assert (Hr : snd r = 1 \/ snd r = -1) by (apply H; left; reflexivity).
  assert (IH' := IH (fun x Hx => H x (or_intror Hx))). lia.
Qed.

Definition press_all (d : db) (ps : list (Z * Z * button)) : db :=
  fold_left (fun d p => let '(s, u, bt) := p in press d s u bt) ps d.

(** The vote buttons only ever store +1 or -1, so starting from such a
    store, after any sequence of button presses every submission's tally
    has a score between minus its vote count and its vote count. *)
Theorem vote_buttons_score_bounded d ps submission_id :
  unit_votes (votes d) ->
  let '(score, count) := get_votes (press_all d ps) submission_id in
  - count <= score <= count.
Proof.
  intros H.
  assert (Hinv : unit_votes (votes (press_all d ps))).
  { unfold press_all. revert d H. induction ps as [|[[s u] bt] ps IH]; simpl; intros d H.
    - exact H.
    - apply IH. destruct bt; simpl; apply unit_votes_set_vote; auto. }
  unfold get_votes, get_votes_rows.
  assert (Hf : unit_votes (filter (fun r => fst (fst r) =? submission_id)
                                  (votes (press_all d ps)))).
  { intros r Hr. apply filter_In in Hr as [Hr _]. exact (Hinv r Hr). }
  pose proof (unit_votes_bound _ Hf). lia.
Qed.

Lemma vote_buttons_score_bounded_witness :
  unit_votes (votes db_guild1) /\
  (let '(score, count) :=
     get_votes (press_all db_guild1 [(1, 5, Upvote); (1, 6, Downvote); (1, 5, Downvote)]) 1 in
   - count <= score <= count).
Proof.
  assert (H : unit_votes (votes db_guild1)) by (intros r []).
  split; [exact H|]. exact (vote_buttons_score_bounded db_guild1 _ 1 H).
Defined.

(** *** The risk score *)

Lemma pattern_fold_shape code ps rs sc :
  exists xs, fold_left (pattern_step code) ps (rs, sc) = (app rs xs, sc + 30 * Z.of_nat (length xs))
             /\ (length xs <= length ps)%nat.
Proof.
  revert rs sc. induction ps as [|[src r] ps IH]; intros rs sc; cbn [fold_left].
  - exists []. rewrite app_nil_r. simpl. split; [f_equal; lia|lia].
  - assert (Hs : pattern_step code (rs, sc) (src, r) =
                 if re_search r code
                 then (app rs ["Matched suspicious pattern: `" ++ src ++ "`"], sc + 30)
                 else (rs, sc)) by reflexivity.
    rewrite Hs. destruct (re_search r code).
    + destruct (IH (app rs ["Matched suspicious pattern: `" ++ src ++ "`"]) (sc + 30))
        as [xs [Hx Hl]].
      exists (("Matched suspicious pattern: `" ++ src ++ "`")%string :: xs). rewrite Hx.
      rewrite <- app_assoc. cbn [app length]. split; [f_equal; lia|lia].
    + destruct (IH rs sc) as [xs [Hx Hl]]. exists xs. split; [exact Hx|cbn [length]; lia].
Qed.

Lemma min100_mod10 x : x mod 10 = 0 -> Z.min 100 x mod 10 = 0.
Proof. intros H. destruct (Z.min_spec 100 x) as [[_ ->]|[_ ->]]; [reflexivity|exact H]. Qed.

(** The score and the reasons of [static_risk_check] go together: the
    score is 0 exactly when no reason is given, it is always a multiple
    of 10, and there are at most 18 reasons (16 patterns, the base64
    blob, the file access). *)
Theorem static_risk_check_reasons code :
  let '(score, reasons) := static_risk_check code in
  (score = 0 <-> reasons = []) /\ score mod 10 = 0 /\ (length reasons <= 18)%nat.
Proof.
  unfold static_risk_check.
  destruct (pattern_fold_shape code SUSPICIOUS_PATTERNS [] 0) as [xs [Hx Hl]].
  rewrite Hx. change (length SUSPICIOUS_PATTERNS) with 16%nat in Hl. cbn [app].
  assert (Hxs : xs = [] <-> Z.of_nat (length xs) = 0).
  { split; [intros ->; reflexivity|destruct xs; [reflexivity|simpl; lia]]. }
  destruct (re_search BASE64_BLOB code);
    destruct (re_search FILE_OPEN code && re_search FILE_RW code); cbv beta iota;
    rewrite ?length_app; simpl length.
  - split; [split; intros H; [lia|apply app_eq_nil in H as [_ H]; discriminate]|].
    split; [|lia]. apply min100_mod10.
    apply Z.mod_divide; [discriminate|]. exists (3 * Z.of_nat (length xs) + 3). lia.
  - split; [split; intros H; [lia|apply app_eq_nil in H as [_ H]; discriminate]|].
    split; [|lia]. apply min100_mod10.
    apply Z.mod_divide; [discriminate|]. exists (3 * Z.of_nat (length xs) + 2). lia.
  - split; [split; intros H; [lia|apply app_eq_nil in H as [_ H]; discriminate]|].
    split; [|lia]. apply min100_mod10.
    apply Z.mod_divide; [discriminate|]. exists (3 * Z.of_nat (length xs) + 1). lia.
  - split; [rewrite Hxs; lia|]. split; [|lia]. apply min100_mod10.
    apply Z.mod_divide; [discriminate|]. exists (3 * Z.of_nat (length xs)). lia.
Qed.

(** *** The resolver, further *)

Lemma exact_pass_in u langs i :
  exact_pass u langs = Some i -> exists l, In l langs /\ le_id l = i.
Proof.
  induction langs as [|l langs IH]; simpl; [discriminate|].
  destruct (String.eqb _ u); [intros [= <-]; eauto|].
  destruct (existsb _ _); [intros [= <-]; eauto|].
  intros H. destruct (IH H) as [l' [Hi He]]. eauto.
Qed.

Lemma substring_pass_in u langs i :
  substring_pass u langs = Some i -> exists l, In l langs /\ le_id l = i.
Proof.
  induction langs as [|l langs IH]; simpl; [discriminate|].
  destruct (contains _ _); [intros [= <-]; eauto|].
  intros H. destruct (IH H) as [l' [Hi He]]. eauto.
Qed.

Lemma mapped_pass_in m langs i :
  mapped_pass m langs = Some i -> exists l, In l langs /\ le_id l = i.
Proof.
  induction langs as [|l langs IH]; simpl; [discriminate|].
  destruct (_ || _); [intros [= <-]; eauto|].
  intros H. destruct (IH H) as [l' [Hi He]]. eauto.
Qed.

Lemma resolve_in_catalog_in u langs i :
  resolve_in_catalog u langs = Some i -> exists l, In l langs /\ le_id l = i.
Proof.
  unfold resolve_in_catalog.
  destruct (exact_pass u langs) eqn:E1; [intros [= <-]; exact (exact_pass_in _ _ _ E1)|].
  destruct (substring_pass u langs) eqn:E2; [intros [= <-]; exact (substring_pass_in _ _ _ E2)|].
  unfold fallback_pass. destruct (alias_lookup u); [apply mapped_pass_in|discriminate].
Qed.

(** The catalog [find_language_id] consults: the cached one, or else the
    one the fetch would return. *)
Definition catalog_seen (b : backend) (st : state) : list lang_entry :=
  match st_cache st with
  | Some ls => ls
  | None => match b_languages b with Some ls => ls | None => [] end
  end.

(** [find_language_id] never raises, and an id it returns is either the
    number the input spells or the id of an entry of the catalog it
    consulted. *)
Theorem find_language_id_known_id user_lang b st i :
  fst (find_language_id user_lang b st) = Some (Some i) ->
  (isdigit (lower (strip user_lang)) = true /\ i = int_of_digits (lower (strip user_lang))) \/
  (exists l, In l (catalog_seen b st) /\ le_id l = i).
Proof.
  destruct (String.eqb (lower (strip user_lang)) "") eqn:E.
  { unfold find_language_id. cbv zeta. rewrite E. discriminate. }
  destruct (isdigit (lower (strip user_lang))) eqn:D.
  { unfold find_language_id. cbv zeta. rewrite E, D. intros [= <-]. left. auto. }
  apply String.eqb_neq in E.
  rewrite (find_language_id_catalog _ _ _ E D). unfold catalog_seen.
  destruct (st_cache st); simpl; intros [= H]; right; exact (resolve_in_catalog_in _ _ _ H).
Qed.

Lemma find_language_id_known_id_witness :
  fst (find_language_id "py" (mkBackend (Some catalog_py) ReplyTimeout [] [] true)
         (empty_state db_guild1)) = Some (Some 2) /\
  ((isdigit (lower (strip "py")) = true /\ 2 = int_of_digits (lower (strip "py"))) \/
   (exists l, In l (catalog_seen (mkBackend (Some catalog_py) ReplyTimeout [] [] true)
                                 (empty_state db_guild1)) /\ le_id l = 2)).
Proof.
  assert (H : fst (find_language_id "py" (mkBackend (Some catalog_py) ReplyTimeout [] [] true)
                     (empty_state db_guild1)) = Some (Some 2)) by (vm_compute; reflexivity).
  split; [exact H|]. exact (find_language_id_known_id _ _ _ 2 H).
Defined.

(** Successive resolutions, each with the backend of its moment. *)
Definition resolve_many (calls : list (string * backend)) (st : state) : state :=
  fold_left (fun st c => snd (find_language_id (fst c) (snd c) st)) calls st.

Lemma find_language_id_cache_step u b st :
  let st' := snd (find_language_id u b st) in
  match st_cache st with
  | Some _ => (exists ls, st_cache st' = Some ls) /\
              fetch_calls (st_events st') = fetch_calls (st_events st)
  | None => (st_cache st' = None /\ fetch_calls (st_events st') = fetch_calls (st_events st)) \/
            ((exists ls, st_cache st' = Some ls) /\
             fetch_calls (st_events st') = S (fetch_calls (st_events st)))
  end.
Proof.
  cbv zeta. unfold find_language_id. cbv zeta.
  destruct (String.eqb _ _).
  { simpl. destruct (st_cache st); eauto. }
  destruct (isdigit _).
  { simpl. destruct (st_cache st); eauto. }
  destruct st as [d [c|] evs]; simpl.
  - eauto.
  - right. split; [eauto|]. rewrite fetch_calls_app. simpl. lia.
Qed.

(** However many resolutions run, the resolver asks Judge0 for the
    catalog at most once per process, and never once a catalog is
    cached. *)
Theorem find_language_id_fetches_at_most_once calls st :
  (fetch_calls (st_events (resolve_many calls st)) <=
   fetch_calls (st_events st) + match st_cache st with Some _ => 0 | None => 1 end)%nat.
Proof.
  unfold resolve_many. revert st. induction calls as [|[u b] calls IH]; intros st; simpl.
  - lia.
  - pose proof (find_language_id_cache_step u b st) as Hs. cbv zeta in Hs.
    specialize (IH (snd (find_language_id u b st))).
    destruct (st_cache st).
    + destruct Hs as [[ls Hc] Hf]. rewrite Hc in IH. lia.
    + destruct Hs as [[Hc Hf]|[[ls Hc] Hf]]; rewrite Hc in IH; lia.
Qed.

(** *** [str.strip] and [str.lower] are idempotent *)

Definition no_lead_space (l : list ascii) : bool :=
  match l with c :: _ => negb (is_space c) | [] => true end.

Lemma drop_spaces_nls l : no_lead_space l = true -> drop_spaces l = l.
Proof. destruct l as [|c l]; simpl; [reflexivity|]. destruct (is_space c); easy. Qed.

Lemma nls_drop_spaces l : no_lead_space (drop_spaces l) = true.
Proof.
  induction l as [|c l IH]; simpl; [reflexivity|].
  destruct (is_space c) eqn:E; [exact IH|simpl; rewrite E; reflexivity].
Qed.

Lemma drop_spaces_split l : exists sp, l = app sp (drop_spaces l).
Proof.
  induction l as [|c l [sp IH]]; simpl; [exists []; reflexivity|].
  destruct (is_space c); [exists (c :: sp); simpl; rewrite <- IH; reflexivity|].
  exists []. reflexivity.
Qed.

Lemma nls_prefix (x y : list ascii) :
  no_lead_space (app x y) = true -> x <> [] -> no_lead_space x = true.
Proof. destruct x; [congruence|simpl; auto]. Qed.

Lemma strip_list_idem l :
  let f l := rev (drop_spaces (rev (drop_spaces l))) in f (f l) = f l.
Proof.
  cbv zeta.
  assert (Ha : no_lead_space (drop_spaces l) = true) by apply nls_drop_spaces.
  assert (Hb : no_lead_space (drop_spaces (rev (drop_spaces l))) = true)
    by apply nls_drop_spaces.
  destruct (drop_spaces_split (rev (drop_spaces l))) as [sp Hsp].
  revert Ha Hb Hsp. generalize (drop_spaces l) as a. intros a Ha.
  generalize (drop_spaces (rev a)) as b. intros b Hb Hsp.
  assert (Hab : a = app (rev b) (rev sp))
    by (rewrite <- rev_app_distr, <- Hsp, rev_involutive; reflexivity).
  destruct (rev b) as [|c r] eqn:Hrb.
  - reflexivity.
  - rewrite (drop_spaces_nls (c :: r)).
    2: { apply (nls_prefix _ (rev sp)); [rewrite Hab in Ha; exact Ha|discriminate]. }
    rewrite <- Hrb, rev_involutive, (drop_spaces_nls b Hb). reflexivity.
Qed.

Lemma strip_idem s : strip (strip s) = strip s.
Proof.
  unfold strip. rewrite list_ascii_of_string_of_list_ascii.
  rewrite (strip_list_idem (list_ascii_of_string s)). reflexivity.
Qed.

Lemma lower_char_idem c : lower_char (lower_char c) = lower_char c.
Proof. all_chars c; reflexivity. Qed.

Lemma lower_idem s : lower (lower s) = lower s.
Proof.
  unfold lower. rewrite list_ascii_of_string_of_list_ascii, map_map.
  f_equal. apply map_ext. apply lower_char_idem.
Qed.

Lemma normalize_idem s : lower (strip (lower (strip s))) = lower (strip s).
Proof. rewrite lower_strip, lower_idem, <- lower_strip, strip_idem. reflexivity. Qed.

(** Leading and trailing whitespace and letter case never matter: a
    language string resolves exactly as its normalised form
    [language.strip().lower()] does, with the same effects. *)
Theorem find_language_id_normalized user_lang b st :
  find_language_id user_lang b st = find_language_id (lower (strip user_lang)) b st.
Proof. unfold find_language_id. rewrite normalize_idem. reflexivity. Qed.

(** *** The import detectors *)

Definition str_lt (a b : string) : Prop := String.compare a b = Lt.

Lemma str_compare_gt a b : String.compare a b = Gt -> str_lt b a.
Proof. unfold str_lt. intros H. rewrite String.compare_antisym, H. reflexivity. Qed.

Lemma insert_sorted_perm x l : Permutation (insert_sorted x l) (x :: l).
Proof.
  induction l as [|y l IH]; simpl; [reflexivity|].
  destruct (String.compare x y); try reflexivity.
  rewrite IH. apply perm_swap.
Qed.

Lemma py_sorted_perm l : Permutation (py_sorted l) l.
Proof.
  induction l as [|x l IH]; simpl; [reflexivity|].
  rewrite insert_sorted_perm, IH. reflexivity.
Qed.

Lemma insert_sorted_hd y x l :
  HdRel str_lt y l -> str_lt y x -> HdRel str_lt y (insert_sorted x l).
Proof.
  destruct l as [|z l]; simpl; intros H1 H2; [constructor; exact H2|].
  inversion H1; subst.
  destruct (String.compare x z); constructor; assumption.
Qed.

Lemma insert_sorted_sorted x l :
  Sorted str_lt l -> ~ In x l -> Sorted str_lt (insert_sorted x l).
Proof.
  induction l as [|y l IH]; simpl; intros Hs Hn; [repeat constructor|].
  destruct (String.compare x y) eqn:E.
  - apply String.compare_eq_iff in E. subst. exfalso. apply Hn. left. reflexivity.
  - constructor; [exact Hs|constructor; exact E].
  - inversion Hs; subst. constructor.
    + apply IH; [assumption|]. intros H. apply Hn. right. exact H.
    + apply insert_sorted_hd; [assumption|]. apply str_compare_gt. exact E.
Qed.

Lemma py_sorted_sorted l : NoDup l -> Sorted str_lt (py_sorted l).
Proof.
  induction l as [|x l IH]; simpl; intros Hn; [constructor|].
  inversion Hn; subst. apply insert_sorted_sorted; [apply IH; assumption|].
  intros H. apply (Permutation_in _ (py_sorted_perm l)) in H. contradiction.
Qed.

Lemma mem_str_In x l : mem_str x l = true <-> In x l.
Proof.
  unfold mem_str. rewrite existsb_exists. split.
  - intros [y [Hy He]]. apply String.eqb_eq in He. subst. exact Hy.
  - intros H. exists x. split; [exact H|apply String.eqb_refl].
Qed.

(** What every module name a detector keeps satisfies. *)
Definition clean_set (P : string -> Prop) (mods : list string) : Prop :=
  NoDup mods /\ forall m, In m mods -> P m.

Lemma clean_set_add (P : string -> Prop) x mods :
  clean_set P mods -> P x -> clean_set P (set_add x mods).
Proof.
  unfold set_add. intros [Hn Hp] Hx. destruct (mem_str x mods) eqn:E; [split; assumption|].
  split.
  - apply NoDup_app; [exact Hn|constructor; [intros []|constructor]|].
    intros y Hy [<-|[]]. apply Bool.not_true_iff_false in E. apply E, mem_str_In. exact Hy.
  - intros m Hm. apply in_app_or in Hm as [Hm|[<-|[]]]; auto.
Qed.

Lemma fold_left_inv {A B} (f : A -> B -> A) (P : A -> Prop) l a :
  P a -> (forall a b, P a -> P (f a b)) -> P (fold_left f l a).
Proof. revert a. induction l as [|x l IH]; simpl; auto. Qed.

Lemma clean_sorted (P : string -> Prop) mods :
  clean_set P mods ->
  Sorted str_lt (py_sorted mods) /\ NoDup (py_sorted mods) /\
  (forall m, In m (py_sorted mods) -> P m).
Proof.
  intros [Hn Hp]. split; [apply py_sorted_sorted; exact Hn|]. split.
  - apply (Permutation_NoDup (Permutation_sym (py_sorted_perm mods))). exact Hn.
  - intros m Hm. apply Hp. apply (Permutation_in _ (py_sorted_perm mods)). exact Hm.
Qed.

Definition py_module_ok (m : string) : Prop := m <> "" /\ ~ In m PY_STDLIB.

Lemma py_step_ok mods base :
  clean_set py_module_ok mods ->
  clean_set py_module_ok
    (if negb (String.eqb base "") && negb (mem_str base PY_STDLIB) then set_add base mods
     else mods).
Proof.
  intros H. destruct (String.eqb base "") eqn:E1; [exact H|].
  destruct (mem_str base PY_STDLIB) eqn:E2; [exact H|]. simpl.
  apply clean_set_add; [exact H|]. split.
  - apply String.eqb_neq. exact E1.
  - intros Hi. apply mem_str_In in Hi. congruence.
Qed.

Lemma detect_python_imports_ok code :
  let mods := detect_python_imports code in
  Sorted str_lt mods /\ NoDup mods /\
  (forall m, In m mods -> m <> "" /\ ~ In m PY_STDLIB).
Proof.
  cbv zeta. unfold detect_python_imports. cbv zeta. apply (clean_sorted py_module_ok).
  apply fold_left_inv.
  - apply fold_left_inv; [split; [constructor|intros _ []]|].
    intros mods [[_ _] c] H. apply fold_left_inv; [exact H|].
    intros mods' part H'. apply py_step_ok. exact H'.
  - intros mods [[_ _] c] H. apply py_step_ok. exact H.
Qed.

Lemma before_char_no_sep sep l : ~ In sep (before_char sep l).
Proof.
  induction l as [|c l IH]; simpl; [auto|].
  destruct (Ascii.eqb_spec c sep) as [->|Hne]; simpl; [auto|].
  intros [H|H]; [congruence|contradiction].
Qed.

Definition js_module_ok (m : string) : Prop :=
  m <> "" /\ startswith m "." = false /\ ~ In "/"%char (list_ascii_of_string m).

Lemma js_step_ok s mods x :
  clean_set js_module_ok mods -> clean_set js_module_ok (js_step s mods x).
Proof.
  destruct x as [[a b] c]. unfold js_step. intros H.
  destruct (String.eqb _ "") eqn:E1; [exact H|].
  destruct (startswith _ ".") eqn:E2; [exact H|].
  destruct (startswith _ "/"); [exact H|]. simpl.
  apply clean_set_add; [exact H|]. split; [apply String.eqb_neq; exact E1|].
  split; [exact E2|]. unfold split_first. rewrite list_ascii_of_string_of_list_ascii.
  apply before_char_no_sep.
Qed.

Lemma detect_js_imports_ok code :
  let mods := detect_js_imports code in
  Sorted str_lt mods /\ NoDup mods /\
  (forall m, In m mods ->
     m <> "" /\ startswith m "." = false /\ ~ In "/"%char (list_ascii_of_string m)).
Proof.
  cbv zeta. unfold detect_js_imports. cbv zeta. apply (clean_sorted js_module_ok).
  apply fold_left_inv; [apply fold_left_inv; [split; [constructor|intros _ []]|]|];
    intros; apply js_step_ok; assumption.
Qed.

(** [detect_python_imports] returns module names in strictly increasing
    order, without repetition, none of them empty and none of them in
    [_PY_STDlib]. *)
Theorem detect_python_imports_clean code :
  let mods := detect_python_imports code in
  Sorted str_lt mods /\ NoDup mods /\
  (forall m, In m mods -> m <> "" /\ ~ In m PY_STDLIB).
Proof. exact (detect_python_imports_ok code). Qed.

(** [detect_js_imports] returns package names in strictly increasing
    order, without repetition, none empty, none starting with a dot and
    none containing a slash (relative paths and sub-paths are cut off). *)
Theorem detect_js_imports_clean code :
  let mods := detect_js_imports code in
  Sorted str_lt mods /\ NoDup mods /\
  (forall m, In m mods ->
     m <> "" /\ startswith m "." = false /\ ~ In "/"%char (list_ascii_of_string m)).
Proof. exact (detect_js_imports_ok code). Qed.

(** Whatever the language hint, [detect_external_packages] returns a
    strictly increasing list without repetition. *)
Theorem detect_external_packages_sorted code language_hint :
  let mods := detect_external_packages code language_hint in
  Sorted str_lt mods /\ NoDup mods.
Proof.
  cbv zeta. unfold detect_external_packages. cbv zeta.
  destruct (_ || _).
  - pose proof (detect_python_imports_ok code) as [H1 [H2 _]]. auto.
  - destruct (_ || _ || _).
    + pose proof (detect_js_imports_ok code) as [H1 [H2 _]]. auto.
    + destruct (clean_sorted (fun _ => True)
                  (fold_left (fun acc x => set_add x acc)
                     (map (fun m => let '(_, _, c) := m in
                                    split_first "."%char (group1 (list_ascii_of_string code) c))
                          (finditer GENERIC_IMPORT (list_ascii_of_string code))) []))
        as [H1 [H2 _]]; [|auto].
      apply fold_left_inv; [split; [constructor|intros _ []]|].
      intros acc x H. apply clean_set_add; [exact H|exact I].
Qed.

(** *** The highlighted lines *)

Lemma firstn_length_firstn {A} (m : nat) (l : list A) :
  firstn (length (firstn m l)) l = firstn m l.
Proof.
  revert l. induction m as [|m IH]; intros [|x l]; simpl; try reflexivity.
  rewrite IH. reflexivity.
Qed.

Lemma highlight_width code stdout :
  (snd (highlight_lines code stdout) - fst (highlight_lines code stdout) <= 20)%nat.
Proof.
  unfold highlight_lines. cbv zeta.
  destruct (String.eqb (strip stdout) ""); cbn [fst snd]; [lia|].
  destruct (first_nonblank 0 (splitlines stdout)); cbn [fst snd]; lia.
Qed.

(** For code of at least one line, the image of the completed path shows
    a non-empty run of consecutive lines of the code, at most 20 of
    them. *)
Theorem highlight_selection code stdout :
  splitlines code <> [] ->
  let sel := selected_lines code (highlight_lines code stdout) in
  sel <> [] /\ (length sel <= 20)%nat /\
  exists k, sel = firstn (length sel) (skipn k (splitlines code)).
Proof.
  intros Hne. cbv zeta. pose proof (highlight_width code stdout) as Hw.
  destruct (highlight_lines code stdout) as [start stop]. simpl in Hw.
  unfold selected_lines.
  destruct (firstn (stop - start) (skipn start (splitlines code))) as [|x r] eqn:E.
  - destruct (splitlines code) as [|y ys]; [congruence|].
    split; [cbn [length]; destruct (Nat.min 10 (S (length ys))) eqn:Em; [lia|discriminate]|].
    split.
    + rewrite length_firstn. lia.
    + exists 0%nat. cbn [skipn]. rewrite firstn_length_firstn. reflexivity.
  - rewrite <- E. split; [rewrite E; discriminate|]. split.
    + rewrite length_firstn. lia.
    + exists start. rewrite firstn_length_firstn. reflexivity.
Qed.

Lemma highlight_selection_witness :
  splitlines ("a" ++ nl ++ "b") <> [] /\
  (let sel := selected_lines ("a" ++ nl ++ "b") (highlight_lines ("a" ++ nl ++ "b") "x") in
   sel <> [] /\ (length sel <= 20)%nat /\
   exists k, sel = firstn (length sel) (skipn k (splitlines ("a" ++ nl ++ "b")))).
Proof.
  assert (H : splitlines ("a" ++ nl ++ "b") <> []) by (vm_compute; discriminate).
  split; [exact H|]. exact (highlight_selection _ "x" H).
Defined.

(** *** The requirement list *)

(** Every entry of the requirement list of [submit_code] is non-empty and
    has no surrounding whitespace. *)
Theorem req_list_entries requirements x :
  In x (req_list requirements) -> x <> "" /\ strip x = x.
Proof.
  unfold req_list. destruct requirements as [r|]; [|intros []].
  destruct (String.eqb r ""); [intros []|].
  intros H. apply filter_In in H as [H1 H2]. apply in_map_iff in H1 as [y [<- _]].
  split; [apply String.eqb_neq; destruct (String.eqb (strip y) ""); easy|].
  apply strip_idem.
Qed.

Lemma req_list_entries_witness :
  In "flask" (req_list (Some (" numpy ," ++ nl ++ "flask"))) /\
  ("flask" <> "" /\ strip "flask" = "flask").
Proof.
  assert (H : In "flask" (req_list (Some (" numpy ," ++ nl ++ "flask"))))
    by (vm_compute; right; left; reflexivity).
  split; [exact H|]. exact (req_list_entries _ _ H).
Defined.

(** *** The Judge0 call *)

Lemma execute_caught_result json_loads lid code b st :
  exists j,
    execute_caught json_loads lid code b st =
    (Some j, mkState (st_db st) (st_cache st) (app (st_events st) [EvExecute lid code])) /\
    match failure_reason json_loads (b_exec b) with
    | Some msg => j = JObj [("error", JStr msg)]
    | None => exists http_status text,
                b_exec b = ReplyBody http_status text /\ json_loads text = Some j
    end.
Proof.
  destruct (failure_reason json_loads (b_exec b)) as [msg|] eqn:E.
  - exists (JObj [("error", JStr msg)]). split; [|reflexivity].
    apply execute_caught_failure. exact E.
  - destruct (b_exec b) as [h t| |m] eqn:Eb; simpl in E; try discriminate.
    destruct (json_loads t) as [j|] eqn:Ej; [|discriminate].
    exists j. split; [|exists h, t; auto].
    unfold execute_caught, submit_to_judge0, bind, emit, ask, ret.
    cbn [st_db st_cache st_events]. rewrite Eb, Ej. reflexivity.
Qed.

(** *** Relations kept by every step of a run *)

Class StatePreorder (R : state -> state -> Prop) := {
  sp_refl : forall s, R s s;
  sp_trans : forall s1 s2 s3, R s1 s2 -> R s2 s3 -> R s1 s3
}.

Definition preserves (R : state -> state -> Prop) {A} (m : M A) : Prop :=
  forall b s, R s (snd (m b s)).

Section Preserves.

Context (R : state -> state -> Prop) `{StatePreorder R}.

Lemma preserves_bind {A B} (m : M A) (k : A -> M B) :
  preserves R m -> (forall a, preserves R (k a)) -> preserves R (bind m k).
Proof.
  intros Hm Hk b s. unfold bind. specialize (Hm b s).
  destruct (m b s) as [[a|] s'] eqn:E; simpl in Hm; [|exact Hm].
  exact (sp_trans _ _ _ Hm (Hk a b s')).
Qed.

Lemma preserves_ret {A} (a : A) : preserves R (ret a).
Proof. intros b s. apply sp_refl. Qed.

Lemma preserves_raise {A} : preserves R (@raise A).
Proof. intros b s. apply sp_refl. Qed.

Lemma preserves_ask : preserves R ask.
Proof. intros b s. apply sp_refl. Qed.

Lemma preserves_get_cache : preserves R get_cache.
Proof. intros b s. apply sp_refl. Qed.

Lemma preserves_read_db {A} (f : db -> A) : preserves R (read_db f).
Proof. intros b s. apply sp_refl. Qed.

(** A step that leaves the database alone keeps a relation that only
    looks at the database. *)
Lemma preserves_db_const {A} (m : M A) :
  (forall s s', st_db s' = st_db s -> R s s') ->
  (forall b s, st_db (snd (m b s)) = st_db s) ->
  preserves R m.
Proof. intros HR Hm b s. exact (HR _ _ (Hm b s)). Qed.

End Preserves.

(** An event other than an execution request. *)
Definition not_exec (e : event) : bool :=
  match e with EvExecute _ _ => false | _ => true end.

(** The database is untouched. *)
Definition db_same (s s' : state) : Prop := st_db s' = st_db s.

(** No execution request is made. *)
Definition exec_same (s s' : state) : Prop :=
  exec_calls (st_events s') = exec_calls (st_events s).

(** Row [n] does not become [completed]. *)
Definition completed (n : Z) (s : state) : Prop :=
  option_map sub_status (get_submission (st_db s) n) = Some "completed".

Definition status_keep (n : Z) (s s' : state) : Prop := completed n s' -> completed n s.

(** The columns of a submission fixed at intake. *)
Definition ident (s : submission) : Z * Z * string * string * option string :=
  (sub_guild_id s, sub_user_id s, sub_language s, sub_code s, sub_requirements s).

(** Only row [n] is written, and only its result columns. *)
Definition frame (n : Z) (s s' : state) : Prop :=
  guild_config (st_db s') = guild_config (st_db s) /\ votes (st_db s') = votes (st_db s) /\
  next_id (st_db s') = next_id (st_db s) /\
  option_map ident (get_submission (st_db s') n) = option_map ident (get_submission (st_db s) n) /\
  (forall x, x <> n -> get_submission (st_db s') x = get_submission (st_db s) x).

#[export] Instance db_same_preorder : StatePreorder db_same.
Proof. split; unfold db_same; congruence. Qed.

#[export] Instance exec_same_preorder : StatePreorder exec_same.
Proof. split; unfold exec_same; congruence. Qed.

#[export] Instance status_keep_preorder n : StatePreorder (status_keep n).
Proof. split; unfold status_keep; auto. Qed.

#[export] Instance frame_preorder n : StatePreorder (frame n).
Proof.
  split; unfold frame.
  - intros s. repeat split; auto.
  - intros s1 s2 s3 [A1 [B1 [C1 [D1 E1]]]] [A2 [B2 [C2 [D2 E2]]]].
    repeat split; try congruence.
    intros x Hx. rewrite E2, E1; auto.
Qed.

Lemma db_same_of_db s s' : st_db s' = st_db s -> db_same s s'.
Proof. exact (fun H => H). Qed.

Lemma status_keep_of_db n s s' : st_db s' = st_db s -> status_keep n s s'.
Proof. unfold status_keep, completed. intros H. rewrite H. auto. Qed.

Lemma frame_of_db n s s' : st_db s' = st_db s -> frame n s s'.
Proof. intros H. unfold frame. rewrite H. repeat split; auto. Qed.

Lemma db_same_emit e : preserves db_same (emit e).
Proof. apply preserves_db_const; [exact db_same_of_db|reflexivity]. Qed.

Lemma status_keep_emit n e : preserves (status_keep n) (emit e).
Proof. apply preserves_db_const; [apply status_keep_of_db|reflexivity]. Qed.

Lemma frame_emit n e : preserves (frame n) (emit e).
Proof. apply preserves_db_const; [apply frame_of_db|reflexivity]. Qed.

Lemma db_same_set_cache c : preserves db_same (set_cache c).
Proof. apply preserves_db_const; [exact db_same_of_db|reflexivity]. Qed.

Lemma status_keep_set_cache n c : preserves (status_keep n) (set_cache c).
Proof. apply preserves_db_const; [apply status_keep_of_db|reflexivity]. Qed.

Lemma frame_set_cache n c : preserves (frame n) (set_cache c).
Proof. apply preserves_db_const; [apply frame_of_db|reflexivity]. Qed.

Lemma exec_same_emit e : not_exec e = true -> preserves exec_same (emit e).
Proof.
  intros He b s. unfold exec_same. simpl. rewrite exec_calls_app.
  destruct e; try discriminate; simpl; lia.
Qed.

Lemma exec_same_set_cache c : preserves exec_same (set_cache c).
Proof. intros b s. reflexivity. Qed.

Lemma exec_same_update sid status ai_summary stdout stderr :
  preserves exec_same (update sid status ai_summary stdout stderr).
Proof. intros b s. reflexivity. Qed.

(** A status other than [completed] written to any row. *)
Definition not_completed (status : option string) : Prop :=
  match status with Some x => String.eqb x "completed" = false | None => True end.

Lemma status_keep_update n sid status ai_summary stdout stderr :
  not_completed status ->
  preserves (status_keep n) (update sid status ai_summary stdout stderr).
Proof.
  intros Hs b s. unfold status_keep, completed, update, with_db. cbn [snd st_db].
  destruct (Z.eq_dec sid n) as [<-|Hne].
  - rewrite get_submission_update. destruct (get_submission (st_db s) sid) as [r|];
      [|auto]. destruct status as [x|]; simpl; [|auto].
    intros Hx. injection Hx as ->. discriminate.
  - rewrite update_submission_result_other by congruence. auto.
Qed.

Lemma frame_update n status ai_summary stdout stderr :
  preserves (frame n) (update n status ai_summary stdout stderr).
Proof.
  intros b s. unfold frame, update, with_db. cbn [snd st_db].
  destruct (update_submission_result_tables (st_db s) n status ai_summary stdout stderr)
    as [H1 [H2 H3]].
  repeat split; auto.
  - rewrite get_submission_update. destruct (get_submission (st_db s) n); reflexivity.
  - intros x Hx. apply update_submission_result_other. exact Hx.
Qed.

Create HintDb pres.
#[local] Hint Resolve preserves_ret preserves_raise preserves_ask preserves_get_cache
  preserves_read_db db_same_emit status_keep_emit frame_emit db_same_set_cache
  status_keep_set_cache frame_set_cache exec_same_emit exec_same_set_cache
  exec_same_update status_keep_update frame_update : pres.
#[local] Hint Extern 1 (not_completed _) => exact I || reflexivity : pres.

(** Walks a monadic term, splitting on its binds and case analyses and
    closing each primitive step with the [pres] hints. *)
Ltac pres_unfold :=
  unfold find_language_id, fetch_judge0_languages, channel_found, exec_failed_path,
    completed_path, text_or_empty, compile_text, followup_send, channel_send, error_value.

Ltac pres :=
  repeat (cbv beta zeta;
    match goal with
    | |- preserves _ (bind _ _) => refine (preserves_bind _ _ _ _ _); [|intros ?]
    | |- preserves _ (match ?x with _ => _ end) => destruct x
    | |- preserves _ _ => solve [eauto with pres typeclass_instances]
    | |- preserves _ _ => progress pres_unfold
    end).

Lemma resolve_and_execute_frame json_loads sid fc language code detected reqs :
  preserves (frame sid) (resolve_and_execute json_loads sid fc language code detected reqs).
Proof. unfold resolve_and_execute, execute_caught, submit_to_judge0. pres. Qed.

(** At most [k] execution requests. *)
Definition exec_le (k : nat) {A} (m : M A) : Prop :=
  forall b s, (exec_calls (st_events (snd (m b s))) <= exec_calls (st_events s) + k)%nat.

Lemma exec_le_of_same k {A} (m : M A) : preserves exec_same m -> exec_le k m.
Proof. intros H b s. specialize (H b s). unfold exec_same in H. lia. Qed.

Lemma exec_le_bind_same k {A B} (m : M A) (f : A -> M B) :
  preserves exec_same m -> (forall a, exec_le k (f a)) -> exec_le k (bind m f).
Proof.
  intros Hm Hf b s. specialize (Hm b s). unfold exec_same, bind in *.
  destruct (m b s) as [[a|] s'] eqn:E; simpl in *; [|lia].
  specialize (Hf a b s'). cbv beta in Hf. lia.
Qed.

Lemma exec_le_bind k {A B} (m : M A) (f : A -> M B) :
  exec_le k m -> (forall a, preserves exec_same (f a)) -> exec_le k (bind m f).
Proof.
  intros Hm Hf b s. specialize (Hm b s). unfold exec_same, bind in *.
  destruct (m b s) as [[a|] s'] eqn:E; simpl in *; [|lia].
  specialize (Hf a b s'). cbv beta in Hf. lia.
Qed.

Lemma execute_caught_le json_loads lid code : exec_le 1 (execute_caught json_loads lid code).
Proof.
  intros b s. destruct (execute_caught_result json_loads lid code b s) as [j [Hj _]].
  rewrite Hj. cbn [snd st_events]. rewrite exec_calls_app. simpl. lia.
Qed.

Lemma resolve_and_execute_exec json_loads sid fc language code detected reqs :
  exec_le 1 (resolve_and_execute json_loads sid fc language code detected reqs).
Proof.
  unfold resolve_and_execute. apply exec_le_bind_same; [pres|intros [lid|]].
  - apply exec_le_bind_same; [pres|intros _].
    apply exec_le_bind; [apply execute_caught_le|intros r; pres].
  - apply exec_le_of_same. pres.
Qed.

(** A reply Judge0 answered, decoded to a dictionary without an [error]
    key. *)
Definition clean_reply (json_loads : string -> option json) (b : backend) : Prop :=
  exists http_status text kvs,
    b_exec b = ReplyBody http_status text /\ json_loads text = Some (JObj kvs) /\
    existsb (fun kv => String.eqb (fst kv) "error") kvs = false.

Lemma resolve_and_execute_completed json_loads sid fc language code detected reqs b s :
  ~ completed sid s ->
  completed sid (snd (resolve_and_execute json_loads sid fc language code detected reqs b s)) ->
  clean_reply json_loads b /\
  exec_calls (st_events (snd (resolve_and_execute json_loads sid fc language code detected reqs
                                b s))) =
  S (exec_calls (st_events s)).
Proof.
  intros Hn.
  assert (Hf : preserves (status_keep sid) (find_language_id language)) by pres.
  specialize (Hf b s).
  assert (He : preserves exec_same (find_language_id language)) by pres.
  specialize (He b s).
  destruct (resolve_and_execute json_loads sid fc language code detected reqs b s)
    as [r s'] eqn:ER.
  cbn [snd]. intros Hc.
  unfold resolve_and_execute in ER. rewrite bind_run in ER.
  destruct (find_language_id language b s) as [[[lid|]|] s1] eqn:E;
    cbn [snd] in Hf, He; unfold status_keep, exec_same in *.
  - unfold followup_send in ER.
    destruct (field_ok (str_of_Z lid) && field_ok (detected_value detected) && list_field_ok reqs).
    2: { cbn [bind raise] in ER. injection ER as _ <-. exfalso. apply Hn, Hf, Hc. }
    rewrite bind_run, emit_run, bind_run in ER.
    match type of ER with
    | context [execute_caught json_loads lid code b ?s2] =>
        destruct (execute_caught_result json_loads lid code b s2) as [j [Hj Hjr]];
        rewrite Hj in ER
    end.
    rewrite bind_run in ER.
    match type of ER with
    | context [match error_in j with _ => _ end b ?s3] => set (s3' := s3) in ER
    end.
    assert (Hs3 : completed sid s3' -> completed sid s1) by (intros H; exact H).
    assert (Hx3 : exec_calls (st_events s3') = S (exec_calls (st_events s))).
    { subst s3'. cbn [st_events]. rewrite !exec_calls_app. simpl. lia. }
    destruct (error_in j) as [e|] eqn:Ee; cbn [ret raise] in ER.
    2: { injection ER as _ <-. exfalso. apply Hn, Hf, Hs3, Hc. }
    destruct j as [| | | | |kvs] eqn:Ej0;
      try solve [cbn [raise] in ER; injection ER as _ <-; exfalso; apply Hn, Hf, Hs3, Hc].
    destruct e.
    + exfalso. apply Hn, Hf, Hs3.
      assert (Hk : preserves (status_keep sid) (exec_failed_path sid fc language kvs)) by pres.
      specialize (Hk b s3'). rewrite ER in Hk. exact (Hk Hc).
    + split.
      * unfold clean_reply.
        destruct (failure_reason json_loads (b_exec b)) as [msg|] eqn:Efr.
        { injection Hjr as ->. simpl in Ee. discriminate Ee. }
        destruct Hjr as [h [t [Hb Ht]]]. exists h, t, kvs. split; [exact Hb|].
        split; [exact Ht|]. simpl in Ee. injection Ee as Ee. exact Ee.
      * assert (Hk : preserves exec_same (completed_path sid fc language detected reqs kvs))
          by pres.
        specialize (Hk b s3'). rewrite ER in Hk. cbn [snd] in Hk. unfold exec_same in Hk.
        rewrite Hk. exact Hx3.
  - exfalso. apply Hn, Hf.
    match type of ER with
    | ?m b s1 = _ =>
        assert (Hk : preserves (status_keep sid) m) by pres;
        specialize (Hk b s1); rewrite ER in Hk; exact (Hk Hc)
    end.
  - injection ER as _ <-. exfalso. auto.
Qed.

Lemma reviewed_state_db rq gid reasons st :
  let d := st_db st in
  let d1 := st_db (reviewed_state rq gid reasons st) in
  guild_config d1 = guild_config d /\ votes d1 = votes d /\ next_id d1 = next_id d + 1 /\
  (forall x, x <> next_id d -> get_submission d1 x = get_submission d x).
Proof.
  cbv zeta. unfold reviewed_state, save_submission. cbn [st_db].
  destruct (update_submission_result_tables
              (mkDb (guild_config (st_db st))
                 ((next_id (st_db st),
                   mkSubmission gid (rq_user rq) (rq_language rq) (rq_code rq)
                     (rq_requirements rq) "reviewing" None None None) :: submissions (st_db st))
                 (next_id (st_db st) + 1) (votes (st_db st)))
              (next_id (st_db st)) None (Some (ai_summary_of (rq_code rq) reasons)) None None)
    as [H1 [H2 H3]].
  rewrite H1, H2, H3. repeat split; [reflexivity..|].
  intros x Hx. rewrite update_submission_result_other by (intros ->; exact (Hx eq_refl)).
  unfold get_submission. cbn [submissions find fst].
  destruct (Z.eqb_spec (next_id (st_db st)) x) as [E|E]; [congruence|reflexivity].
Qed.

(** A run of [/submit_code] changes no guild configuration and no vote,
    advances the submission counter by at most one, and leaves every
    submission row other than the one with the new id as it was. *)
Theorem submit_code_frame json_loads max_len rq b st :
  let st' := snd (submit_code json_loads max_len rq b st) in
  guild_config (st_db st') = guild_config (st_db st) /\
  votes (st_db st') = votes (st_db st) /\
  (next_id (st_db st') = next_id (st_db st) \/ next_id (st_db st') = next_id (st_db st) + 1) /\
  (forall x, x <> next_id (st_db st) ->
     get_submission (st_db st') x = get_submission (st_db st) x).
Proof.
  cbv zeta. destruct (admitted_dec max_len rq (st_db st)) as [[fc Ha]|Hna].
  - destruct Ha as [gid [Hg [Hf [Hfc Hl]]]].
    rewrite (submit_code_intake _ _ _ _ _ _ _ Hg Hf Hfc Hl). cbv zeta.
    destruct (static_risk_check (rq_code rq)) as [score reasons].
    destruct (reviewed_state_db rq gid reasons st) as [A1 [B1 [C1 D1]]]. cbv zeta in *.
    destruct (50 <=? score).
    + cbn [snd st_db].
      destruct (update_submission_result_tables (st_db (reviewed_state rq gid reasons st))
                  (next_id (st_db st)) (Some "rejected") None None None) as [A2 [C2 B2]].
      rewrite A2, B2, C2. repeat split; auto.
      intros x Hx. rewrite update_submission_result_other by exact Hx. auto.
    + destruct (resolve_and_execute_frame json_loads (next_id (st_db st)) fc (rq_language rq)
                  (rq_code rq)
                  (detect_external_packages (rq_code rq) (rq_language rq))
                  (req_list (rq_requirements rq)) b (reviewed_state rq gid reasons st)) as [A2 [B2 [C2 [_ E2]]]].
      repeat split; [congruence|congruence|right; congruence|].
      intros x Hx. rewrite E2 by exact Hx. auto.
  - destruct (submit_code_pre_intake json_loads max_len rq b st Hna) as [t Ht].
    rewrite Ht. cbn [snd st_db]. repeat split; auto.
Qed.

Lemma admitted_new_row json_loads max_len rq b st fc :
  admitted max_len rq (st_db st) fc ->
  let st' := snd (submit_code json_loads max_len rq b st) in
  exists gid s, rq_guild rq = Some gid /\ new_submission st st' = Some s /\
    ident s = (gid, rq_user rq, rq_language rq, rq_code rq, rq_requirements rq).
Proof.
  intros [gid [Hg [Hf [Hfc Hl]]]]. cbv zeta.
  rewrite (submit_code_intake _ _ _ _ _ _ _ Hg Hf Hfc Hl). cbv zeta.
  unfold new_submission.
  destruct (static_risk_check (rq_code rq)) as [score reasons].
  pose proof (get_submission_reviewed rq gid reasons st) as Hr.
  destruct (50 <=? score).
  - cbn [snd st_db]. rewrite get_submission_update, Hr.
    eexists _, _. split; [exact Hg|]. split; reflexivity.
  - destruct (resolve_and_execute_frame json_loads (next_id (st_db st)) fc (rq_language rq)
                (rq_code rq)
                  (detect_external_packages (rq_code rq) (rq_language rq))
                  (req_list (rq_requirements rq)) b (reviewed_state rq gid reasons st)) as [_ [_ [_ [D2 _]]]].
    rewrite Hr in D2. cbn [option_map] in D2.
    match type of D2 with
    | option_map ident ?x = _ => destruct x as [s|] eqn:E; [|discriminate]
    end.
    exists gid, s. split; [exact Hg|]. split; [reflexivity|].
    change (Some (ident s) = Some (gid, rq_user rq, rq_language rq, rq_code rq,
                                   rq_requirements rq)) in D2.
    congruence.
Qed.

(** Once a request is admitted, the run creates the row with the new id,
    and whatever happens later in the run, that row keeps the guild,
    user, language, code and requirements of the request. *)
Theorem submit_code_new_row json_loads max_len rq b st fc :
  admitted max_len rq (st_db st) fc ->
  let st' := snd (submit_code json_loads max_len rq b st) in
  exists gid s, rq_guild rq = Some gid /\ new_submission st st' = Some s /\
    ident s = (gid, rq_user rq, rq_language rq, rq_code rq, rq_requirements rq).
Proof. apply admitted_new_row. Qed.

Lemma submit_code_new_row_witness :
  admitted 8000 (mkRequest (Some 1) 7 "python" "print(1)" None) (st_db (empty_state db_guild1)) 10 /\
  (let st' := snd (submit_code (fun _ => None) 8000
                     (mkRequest (Some 1) 7 "python" "print(1)" None)
                     (mkBackend (Some catalog_py) ReplyTimeout [10] [] true)
                     (empty_state db_guild1)) in
   exists gid s, rq_guild (mkRequest (Some 1) 7 "python" "print(1)" None) = Some gid /\
     new_submission (empty_state db_guild1) st' = Some s /\
     ident s = (gid, rq_user (mkRequest (Some 1) 7 "python" "print(1)" None),
                rq_language (mkRequest (Some 1) 7 "python" "print(1)" None),
                rq_code (mkRequest (Some 1) 7 "python" "print(1)" None),
                rq_requirements (mkRequest (Some 1) 7 "python" "print(1)" None))).
Proof.
  assert (Ha : admitted 8000 (mkRequest (Some 1) 7 "python" "print(1)" None)
                 (st_db (empty_state db_guild1)) 10).
  { exists 1. split; [reflexivity|]. split; [reflexivity|]. split; [discriminate|].
    vm_compute. lia. }
  split; [exact Ha|].
  exact (submit_code_new_row (fun _ => None) 8000 _ (mkBackend (Some catalog_py) ReplyTimeout [10] [] true)
           (empty_state db_guild1) 10 Ha).
Defined.

(** A run of [/submit_code] sends at most one execution request to
    Judge0. *)
Theorem submit_code_at_most_one_execution json_loads max_len rq b st :
  (exec_calls (st_events (snd (submit_code json_loads max_len rq b st))) <=
   exec_calls (st_events st) + 1)%nat.
Proof.
  destruct (admitted_dec max_len rq (st_db st)) as [[fc Ha]|Hna].
  - destruct Ha as [gid [Hg [Hf [Hfc Hl]]]].
    rewrite (submit_code_intake _ _ _ _ _ _ _ Hg Hf Hfc Hl). cbv zeta.
    destruct (static_risk_check (rq_code rq)) as [score reasons].
    destruct (50 <=? score).
    + cbn [snd st_events]. rewrite exec_calls_app. simpl. lia.
    + exact (resolve_and_execute_exec json_loads _ fc _ _ _ _ b (reviewed_state rq gid reasons st)).
  - destruct (submit_code_pre_intake json_loads max_len rq b st Hna) as [t Ht].
    rewrite Ht. cbn [snd st_events]. rewrite exec_calls_app. simpl. lia.
Qed.

(** A submission row ends [completed] only if the one execution request
    of the run got a reply that decodes to a dictionary without an
    [error] key (given that no row had the new id before the run). *)
Theorem submit_code_completed_clean_reply json_loads max_len rq b st :
  get_submission (st_db st) (next_id (st_db st)) = None ->
  let st' := snd (submit_code json_loads max_len rq b st) in
  option_map sub_status (new_submission st st') = Some "completed" ->
  clean_reply json_loads b /\ exec_calls (st_events st') = S (exec_calls (st_events st)).
Proof.
  intros H0. cbv zeta. unfold new_submission.
  destruct (admitted_dec max_len rq (st_db st)) as [[fc Ha]|Hna].
  - destruct Ha as [gid [Hg [Hf [Hfc Hl]]]].
    rewrite (submit_code_intake _ _ _ _ _ _ _ Hg Hf Hfc Hl). cbv zeta.
    destruct (static_risk_check (rq_code rq)) as [score reasons].
    pose proof (get_submission_reviewed rq gid reasons st) as Hr.
    destruct (50 <=? score).
    + cbn [snd st_db]. rewrite get_submission_update, Hr. discriminate.
    + intros Hc.
      assert (Hnc : ~ completed (next_id (st_db st)) (reviewed_state rq gid reasons st))
        by (unfold completed; rewrite Hr; discriminate).
      destruct (resolve_and_execute_completed json_loads _ fc _ _ _ _ b _ Hnc Hc) as [A B].
      split; [exact A|]. rewrite B. reflexivity.
  - destruct (submit_code_pre_intake json_loads max_len rq b st Hna) as [t Ht].
    rewrite Ht. cbn [snd st_db]. rewrite H0. discriminate.
Qed.

Definition ok_loads (text : string) : option json :=
  if String.eqb text "ok" then Some (JObj [("stdout", JStr "1")]) else None.

Lemma submit_code_completed_clean_reply_witness :
  get_submission (st_db (empty_state db_guild1)) (next_id (st_db (empty_state db_guild1))) = None /\
  option_map sub_status
    (new_submission (empty_state db_guild1)
       (snd (submit_code ok_loads 8000 (mkRequest (Some 1) 7 "python" "print(1)" None)
               (mkBackend (Some catalog_py) (ReplyBody 201 "ok") [10] [] true)
               (empty_state db_guild1)))) = Some "completed" /\
  (clean_reply ok_loads (mkBackend (Some catalog_py) (ReplyBody 201 "ok") [10] [] true) /\
   exec_calls (st_events (snd (submit_code ok_loads 8000
                                 (mkRequest (Some 1) 7 "python" "print(1)" None)
                                 (mkBackend (Some catalog_py) (ReplyBody 201 "ok") [10] [] true)
                                 (empty_state db_guild1)))) =
   S (exec_calls (st_events (empty_state db_guild1)))).
Proof.
  assert (H0 : get_submission (st_db (empty_state db_guild1))
                 (next_id (st_db (empty_state db_guild1))) = None) by reflexivity.
  assert (H1 : option_map sub_status
    (new_submission (empty_state db_guild1)
       (snd (submit_code ok_loads 8000 (mkRequest (Some 1) 7 "python" "print(1)" None)
               (mkBackend (Some catalog_py) (ReplyBody 201 "ok") [10] [] true)
               (empty_state db_guild1)))) = Some "completed") by (vm_compute; reflexivity).
  split; [exact H0|]. split; [exact H1|].
  exact (submit_code_completed_clean_reply ok_loads 8000 _ _ _ H0 H1).
Defined.

(** A request from outside a guild, for a guild without a (non-zero)
    form channel, or with code longer than the limit, gets a single
    follow-up message: the database and the language cache are left as
    they are and nothing is sent to Judge0. *)
Theorem submit_code_not_admitted json_loads max_len rq b st :
  (forall fc, ~ admitted max_len rq (st_db st) fc) ->
  exists title,
    submit_code json_loads max_len rq b st
    = (Some tt, mkState (st_db st) (st_cache st) (app (st_events st) [EvFollowup title])).
Proof. exact (submit_code_pre_intake json_loads max_len rq b st). Qed.

Lemma submit_code_not_admitted_witness :
  (forall fc, ~ admitted 8000 (mkRequest None 7 "python" "print(1)" None)
                  (st_db (empty_state db_guild1)) fc) /\
  exists title,
    submit_code (fun _ => None) 8000 (mkRequest None 7 "python" "print(1)" None)
      (mkBackend (Some catalog_py) ReplyTimeout [10] [] true) (empty_state db_guild1)
    = (Some tt, mkState (st_db (empty_state db_guild1)) (st_cache (empty_state db_guild1))
                  (app (st_events (empty_state db_guild1)) [EvFollowup title])).
Proof.
  assert (H : forall fc, ~ admitted 8000 (mkRequest None 7 "python" "print(1)" None)
                             (st_db (empty_state db_guild1)) fc).
  { intros fc [gid [Hg _]]. discriminate Hg. }
  split; [exact H|].
  exact (submit_code_not_admitted (fun _ => None) 8000 _ (mkBackend (Some catalog_py) ReplyTimeout [10] [] true)
           (empty_state db_guild1) H).
Defined.

(** *** Separators in the requirement list *)

Lemma bt_cont fuel r s i cap k x :
  bt fuel r s i cap k = Some x -> exists j c, (i <= j)%nat /\ k j c = Some x.
Proof.
  revert r i cap k. induction fuel as [|f IH]; intros r i cap k H; [discriminate|].
  destruct r as [|p|a b'|a b'|a| |a]; simpl in H.
  - exists i, cap. auto.
  - destruct (nth_error s i) as [ch|]; [|discriminate].
    destruct (p ch); [|discriminate]. exists (S i), cap. split; [lia|exact H].
  - apply IH in H as [j [c [Hj H]]]. apply IH in H as [j' [c' [Hj' H]]].
    exists j', c'. split; [lia|exact H].
  - destruct (bt f a s i cap k) as [y|] eqn:E.
    + injection H as ->. exact (IH _ _ _ _ E).
    + exact (IH _ _ _ _ H).
  - destruct (bt f a s i cap _) as [y|] eqn:E.
    + injection H as ->. apply IH in E as [j [c [Hj E]]].
      destruct (Nat.eqb j i); [discriminate|].
      apply IH in E as [j' [c' [Hj' E]]]. exists j', c'. split; [lia|exact E].
    + exists i, cap. auto.
  - destruct i as [|p].
    + exists 0%nat, cap. auto.
    + destruct (nth_error s p) as [ch|]; [|discriminate].
      destruct (Ascii.eqb ch (chr 10)); [|discriminate]. exists (S p), cap. auto.
  - apply IH in H as [j [c [Hj H]]]. exists j, (Some (i, j)). auto.
Qed.

Definition is_req_sep (c : ascii) : bool := Ascii.eqb c (chr 10) || Ascii.eqb c ","%char.

Lemma match_at_req_sep_fuel (s : list ascii) : exists f,
  (S (S (length s)) * S (psize REQ_SEP) = S (S f))%nat.
Proof. exists (length s * 5 + 8)%nat. unfold REQ_SEP, pplus. cbn [psize]. lia. Qed.

Lemma match_at_req_sep_some s i j c :
  match_at REQ_SEP s i = Some (j, c) ->
  exists ch, nth_error s i = Some ch /\ is_req_sep ch = true /\ (i < j)%nat.
Proof.
  unfold match_at. destruct (match_at_req_sep_fuel s) as [f Hf]. rewrite Hf.
  cbn [bt REQ_SEP pplus]. intros H.
  destruct (nth_error s i) as [ch|] eqn:Ech; [|discriminate].
  destruct (_ || _) eqn:Es; [|discriminate].
  exists ch. split; [reflexivity|]. split; [exact Es|].
  destruct (bt f _ s (S i) None _) as [y|] eqn:Eb.
  - injection H as ->. apply bt_cont in Eb as [j' [c' [Hj' Eb]]].
    destruct (Nat.eqb j' (S i)); [discriminate|].
    apply bt_cont in Eb as [j'' [c'' [Hj'' Eb]]]. injection Eb as -> ->. lia.
  - injection H as <- <-. lia.
Qed.

Lemma match_at_req_sep_none s i ch :
  match_at REQ_SEP s i = None -> nth_error s i = Some ch -> is_req_sep ch = false.
Proof.
  unfold match_at. destruct (match_at_req_sep_fuel s) as [f Hf]. rewrite Hf.
  cbn [bt REQ_SEP pplus]. intros H Ech. rewrite Ech in H.
  unfold is_req_sep. destruct (_ || _); [|reflexivity].
  destruct (bt f _ s (S i) None _); discriminate.
Qed.

(** No separator among the characters [start .. i-1]. *)
Definition no_sep_between (s : list ascii) (start i : nat) : Prop :=
  forall p ch, (start <= p < i)%nat -> nth_error s p = Some ch -> is_req_sep ch = false.

Lemma in_slice (s : list ascii) a b ch :
  In ch (firstn (b - a) (skipn a s)) -> exists p, (a <= p < b)%nat /\ nth_error s p = Some ch.
Proof.
  intros H. apply In_nth_error in H as [q Hq].
  rewrite nth_error_firstn in Hq. destruct (Nat.ltb_spec q (b - a)) as [Hl|Hl]; [|discriminate].
  rewrite nth_error_skipn in Hq. exists (a + q)%nat. split; [lia|exact Hq].
Qed.

Lemma in_skipn (s : list ascii) a ch :
  In ch (skipn a s) -> exists p, (a <= p < length s)%nat /\ nth_error s p = Some ch.
Proof.
  intros H. apply In_nth_error in H as [q Hq]. rewrite nth_error_skipn in Hq.
  exists (a + q)%nat. split; [|exact Hq].
  assert (Hs : nth_error s (a + q) <> None) by congruence.
  apply nth_error_Some in Hs. lia.
Qed.

Lemma finditer_pieces_no_sep (s : list ascii) fuel i start :
  (length s + 2 - i <= fuel)%nat -> no_sep_between s start i ->
  forall x, In x (split_pieces s start (finditer_aux fuel REQ_SEP s i)) ->
  forall ch, In ch (list_ascii_of_string x) -> is_req_sep ch = false.
Proof.
  assert (Hlast : forall i start, (length s < i)%nat -> no_sep_between s start i ->
            forall ch, In ch (skipn start s) -> is_req_sep ch = false).
  { intros i' st' Hi Hn ch Hin. apply in_skipn in Hin as [p [Hp Hnth]].
    exact (Hn p ch ltac:(lia) Hnth). }
  revert i start. induction fuel as [|f IH]; intros i start Hf Hn x Hx ch Hch.
  - simpl in Hx. destruct Hx as [<-|[]].
    rewrite list_ascii_of_string_of_list_ascii in Hch. exact (Hlast i start ltac:(lia) Hn ch Hch).
  - simpl in Hx. destruct (Nat.ltb_spec (length s) i) as [Hi|Hi].
    + simpl in Hx. destruct Hx as [<-|[]].
      rewrite list_ascii_of_string_of_list_ascii in Hch. exact (Hlast i start Hi Hn ch Hch).
    + destruct (match_at REQ_SEP s i) as [[j c]|] eqn:Em.
      * destruct (match_at_req_sep_some s i j c Em) as [c0 [_ [_ Hij]]].
        replace (Nat.eqb j i) with false in Hx by (symmetry; apply Nat.eqb_neq; lia).
        simpl in Hx. destruct Hx as [<-|Hx].
        -- rewrite list_ascii_of_string_of_list_ascii in Hch. unfold slice in Hch.
           apply in_slice in Hch as [p [Hp Hnth]]. exact (Hn p ch Hp Hnth).
        -- refine (IH j j _ _ x Hx ch Hch); [lia|]. intros p c1 Hp. lia.
      * refine (IH (S i) start _ _ x Hx ch Hch); [lia|].
        intros p c1 Hp Hnth. destruct (Nat.eq_dec p i) as [->|Hne].
        -- exact (match_at_req_sep_none s i c1 Em Hnth).
        -- exact (Hn p c1 ltac:(lia) Hnth).
Qed.

Lemma drop_spaces_in c l : In c (drop_spaces l) -> In c l.
Proof.
  induction l as [|d l IH]; simpl; [auto|].
  destruct (is_space d); simpl; auto.
Qed.

Lemma strip_in c x : In c (list_ascii_of_string (strip x)) -> In c (list_ascii_of_string x).
Proof.
  unfold strip. rewrite list_ascii_of_string_of_list_ascii. intros H.
  apply in_rev in H. apply drop_spaces_in in H. apply in_rev in H.
  exact (drop_spaces_in _ _ H).
Qed.

(** No entry of the requirement list of [submit_code] contains a newline
    or a comma: the text is cut at every separator. *)
Theorem req_list_no_separator requirements x :
  In x (req_list requirements) ->
  ~ In (chr 10) (list_ascii_of_string x) /\ ~ In ","%char (list_ascii_of_string x).
Proof.
  unfold req_list. destruct requirements as [r|]; [|intros []].
  destruct (String.eqb r ""); [intros []|].
  intros H. apply filter_In in H as [H _]. apply in_map_iff in H as [y [<- Hy]].
  assert (Hc : forall ch, In ch (list_ascii_of_string (strip y)) -> is_req_sep ch = false).
  { intros ch Hch. apply strip_in in Hch. unfold re_split in Hy.
    refine (finditer_pieces_no_sep _ _ 0 0 _ _ y Hy ch Hch); [lia|].
    intros p c Hp. lia. }
  split; intros Hin; apply Hc in Hin; discriminate.
Qed.

Lemma req_list_no_separator_witness :
  In "flask" (req_list (Some (" numpy ," ++ nl ++ "flask"))) /\
  (~ In (chr 10) (list_ascii_of_string "flask") /\ ~ In ","%char (list_ascii_of_string "flask")).
Proof.
  assert (H : In "flask" (req_list (Some (" numpy ," ++ nl ++ "flask"))))
    by (vm_compute; right; left; reflexivity).
  split; [exact H|]. exact (req_list_no_separator _ _ H).
Defined.

Lemma get_form_channel_set d guild_id channel_id :
  get_form_channel_db (set_form_channel_db d guild_id channel_id) guild_id = Some channel_id.
Proof.
  unfold get_form_channel_db, set_form_channel_db. cbn [guild_config].
  rewrite find_app, find_filter_none.
  - simpl. rewrite Z.eqb_refl. reflexivity.
  - intros x Hx. rewrite Hx. reflexivity.
Qed.

(** After [/set_form_channel] stores a non-zero channel for a guild, a
    [/submit_code] from that guild whose code is within the length limit
    is admitted: it creates the row with the new id, holding the
    request's guild, user, language, code and requirements. *)
Theorem set_form_channel_then_submit json_loads max_len d guild_id channel_id rq b cache evs :
  channel_id <> 0 -> rq_guild rq = Some guild_id ->
  (String.length (rq_code rq) <= max_len)%nat ->
  let st := mkState (set_form_channel_db d guild_id channel_id) cache evs in
  exists s, new_submission st (snd (submit_code json_loads max_len rq b st)) = Some s /\
    ident s = (guild_id, rq_user rq, rq_language rq, rq_code rq, rq_requirements rq).
Proof.
  intros Hc Hg Hl. cbv zeta.
  assert (Ha : admitted max_len rq (set_form_channel_db d guild_id channel_id) channel_id).
  { exists guild_id. split; [exact Hg|]. split; [apply get_form_channel_set|]. auto. }
  destruct (admitted_new_row json_loads max_len rq b
              (mkState (set_form_channel_db d guild_id channel_id) cache evs) channel_id Ha)
    as [gid [s [Hg' [Hs Hi]]]].
  rewrite Hg in Hg'. injection Hg' as <-. exists s. auto.
Qed.

Lemma set_form_channel_then_submit_witness :
  3 <> 0 /\ rq_guild (mkRequest (Some 5) 7 "python" "print(1)" None) = Some 5 /\
  Nat.le (String.length (rq_code (mkRequest (Some 5) 7 "python" "print(1)" None))) 8000 /\
  (let st := mkState (set_form_channel_db db_guild1 5 3) None [] in
   exists s, new_submission st
               (snd (submit_code (fun _ => None) 8000
                       (mkRequest (Some 5) 7 "python" "print(1)" None)
                       (mkBackend (Some catalog_py) ReplyTimeout [3] [] true) st)) = Some s /\
     ident s = (5, rq_user (mkRequest (Some 5) 7 "python" "print(1)" None),
                rq_language (mkRequest (Some 5) 7 "python" "print(1)" None),
                rq_code (mkRequest (Some 5) 7 "python" "print(1)" None),
                rq_requirements (mkRequest (Some 5) 7 "python" "print(1)" None))).
Proof.
  assert (H1 : 3 <> 0) by discriminate.
  assert (H2 : rq_guild (mkRequest (Some 5) 7 "python" "print(1)" None) = Some 5) by reflexivity.
  assert (H3 : Nat.le (String.length (rq_code (mkRequest (Some 5) 7 "python" "print(1)" None))) 8000)
    by (vm_compute; lia).
  split; [exact H1|]. split; [exact H2|]. split; [exact H3|].
  exact (set_form_channel_then_submit (fun _ => None) 8000 db_guild1 5 3 _
           (mkBackend (Some catalog_py) ReplyTimeout [3] [] true) None [] H1 H2 H3).
Defined.

(** *** The language cache over a run of the process *)

(** A catalog once cached stays cached. *)
Definition cache_keep (s s' : state) : Prop :=
  forall c, st_cache s = Some c -> st_cache s' = Some c.

#[export] Instance cache_keep_preorder : StatePreorder cache_keep.
Proof. split; unfold cache_keep; auto. Qed.

Lemma cache_keep_emit e : preserves cache_keep (emit e).
Proof. intros b s c H. exact H. Qed.

Lemma cache_keep_with_db {A} (f : db -> A * db) : preserves cache_keep (with_db f).
Proof. intros b s c H. unfold with_db. destruct (f (st_db s)). exact H. Qed.

Lemma cache_keep_update sid status ai_summary stdout stderr :
  preserves cache_keep (update sid status ai_summary stdout stderr).
Proof. apply cache_keep_with_db. Qed.

(** [find_language_id] only writes the cache when it is unset. *)
Lemma cache_keep_find u : preserves cache_keep (find_language_id u).
Proof.
  intros b s c H. unfold find_language_id. cbv zeta.
  destruct (String.eqb _ _); [exact H|]. destruct (isdigit _); [exact H|].
  destruct s as [d c' evs]. cbn [st_cache] in H. subst c'. reflexivity.
Qed.

#[local] Hint Resolve cache_keep_emit cache_keep_with_db cache_keep_update cache_keep_find : pres.

Lemma submit_code_cache json_loads max_len rq :
  preserves cache_keep (submit_code json_loads max_len rq).
Proof. unfold submit_code, resolve_and_execute, execute_caught, submit_to_judge0. pres. Qed.

Lemma run_commands_cache json_loads max_len cs s c :
  st_cache s = Some c -> st_cache (run_commands json_loads max_len cs s) = Some c.
Proof.
  unfold run_commands. revert s. induction cs as [|cmd cs IH]; intros s Hs; simpl; [exact Hs|].
  apply IH. destruct cmd; simpl; [apply (submit_code_cache json_loads max_len rq b s c Hs)
                                 |exact Hs|exact Hs].
Qed.



(** *** Unresolved languages *)

(** What [find_language_id] answers depends on the cache, not on the
    database or the events. *)
Lemma find_language_id_result u b s1 s2 :
  st_cache s1 = st_cache s2 -> fst (find_language_id u b s1) = fst (find_language_id u b s2).
Proof.
  intros Hc. unfold find_language_id. cbv zeta.
  destruct (String.eqb _ _); [reflexivity|]. destruct (isdigit _); [reflexivity|].
  destruct s1 as [d1 c1 e1], s2 as [d2 c2 e2]. cbn [st_cache] in Hc. subst c2.
  destruct c1; reflexivity.
Qed.

Lemma reviewed_state_cache rq gid reasons st :
  st_cache (reviewed_state rq gid reasons st) = st_cache st.
Proof. unfold reviewed_state. destruct (save_submission _ _ _ _ _ _ _ _ _ _). reflexivity. Qed.

(** An admitted, low-risk submission whose language [find_language_id]
    does not resolve ends "lang_not_found" and is never sent to Judge0,
    whether or not the "Language Not Found" message can be sent. *)
Theorem submit_code_unresolved_language json_loads max_len rq b st fc :
  admitted max_len rq (st_db st) fc ->
  fst (static_risk_check (rq_code rq)) < 50 ->
  fst (find_language_id (rq_language rq) b st) = Some None ->
  let st' := snd (submit_code json_loads max_len rq b st) in
  option_map sub_status (new_submission st st') = Some "lang_not_found" /\
  exec_calls (st_events st') = exec_calls (st_events st).
Proof.
  intros [gid [Hg [Hf [Hfc Hl]]]] Hs Hr. cbv zeta.
  rewrite (submit_code_intake _ _ _ _ _ _ _ Hg Hf Hfc Hl). cbv zeta.
  destruct (static_risk_check (rq_code rq)) as [score reasons] eqn:Es.
  cbn [fst] in Hs. replace (50 <=? score) with false by (symmetry; apply Z.leb_gt; lia).
  set (s0 := reviewed_state rq gid reasons st).
  assert (Hr0 : fst (find_language_id (rq_language rq) b s0) = Some None).
  { rewrite <- Hr. apply find_language_id_result. apply reviewed_state_cache. }
  assert (He0 : st_events s0 = st_events st).
  { subst s0. unfold reviewed_state. destruct (save_submission _ _ _ _ _ _ _ _ _ _).
    reflexivity. }
  destruct (find_language_id_shape (rq_language rq) b s0) as [res [s1 [Hfind [Hdb Hev]]]].
  rewrite Hfind in Hr0. cbn [fst] in Hr0. injection Hr0 as ->.
  unfold resolve_and_execute. rewrite bind_run, Hfind.
  unfold fetch_judge0_languages, followup_send, update, with_db, emit, bind, ask, ret, raise.
  destruct s1 as [d1 c1 e1]. cbn [st_db st_cache st_events fst snd] in *. subst d1.
  unfold new_submission.
  destruct (description_ok _); cbn [fst snd st_db st_events];
    rewrite get_submission_update; subst s0; rewrite get_submission_reviewed;
    (split; [reflexivity|]);
    rewrite ?exec_calls_app; rewrite He0 in Hev;
    destruct Hev as [-> | ->]; rewrite ?exec_calls_app; simpl; lia.
Qed.

(** [rust] is not in the catalog: the row ends "lang_not_found". *)
Lemma submit_code_unresolved_language_witness :
  let rq := mkRequest (Some 1) 7 "rust" "fn main() {}" None in
  let b := mkBackend (Some catalog_py) ReplyTimeout [10] [] true in
  (admitted 8000 rq (st_db (empty_state db_guild1)) 10 /\
   fst (static_risk_check (rq_code rq)) < 50 /\
   fst (find_language_id (rq_language rq) b (empty_state db_guild1)) = Some None) /\
  (let st' := snd (submit_code (fun _ => None) 8000 rq b (empty_state db_guild1)) in
   option_map sub_status (new_submission (empty_state db_guild1) st') = Some "lang_not_found" /\
   exec_calls (st_events st') = exec_calls (st_events (empty_state db_guild1))).
Proof.
  cbv zeta.
  assert (Ha : admitted 8000 (mkRequest (Some 1) 7 "rust" "fn main() {}" None)
                 (st_db (empty_state db_guild1)) 10).
  { exists 1. split; [reflexivity|]. split; [reflexivity|]. split; [discriminate|].
    apply Nat.ltb_ge. vm_compute. reflexivity. }
  assert (Hs : fst (static_risk_check (rq_code (mkRequest (Some 1) 7 "rust" "fn main() {}" None)))
               < 50) by (vm_compute; reflexivity).
  assert (Hr : fst (find_language_id (rq_language (mkRequest (Some 1) 7 "rust" "fn main() {}" None))
                      (mkBackend (Some catalog_py) ReplyTimeout [10] [] true)
                      (empty_state db_guild1)) = Some None) by (vm_compute; reflexivity).
  split; [split; [exact Ha|split; [exact Hs|exact Hr]]|].
  exact (submit_code_unresolved_language (fun _ => None) 8000 _
           (mkBackend (Some catalog_py) ReplyTimeout [10] [] true) (empty_state db_guild1) 10
           Ha Hs Hr).
Defined.

(** *** Failure reasons too long for a Discord field *)

Lemma take_length n s : String.length (take n s) = Nat.min n (String.length s).
Proof.
  unfold take. revert n. induction s as [|c s IH]; intros [|n]; simpl; auto.
Qed.

Lemma exec_failed_path_long sid fc language msg b s :
  (1024 < String.length msg)%nat ->
  exec_failed_path sid fc language [("error", JStr msg)] b s =
  (None, mkState (update_submission_result (st_db s) sid (Some "exec_failed") None None
                    (Some msg)) (st_cache s) (st_events s)).
Proof.
  intros Hl.
  assert (Hj : jget "error" [("error", JStr msg)] = Some (JStr msg)) by reflexivity.
  assert (Hf : field_ok (take 1500 msg) = false).
  { unfold field_ok. rewrite take_length.
    replace (Nat.min 1500 (String.length msg) <=? 1024)%nat with false
      by (symmetry; apply Nat.leb_gt; lia).
    apply andb_false_r. }
  unfold exec_failed_path. rewrite Hj. cbn [py_str_opt py_str].
  unfold followup_send. rewrite Hf. reflexivity.
Qed.

Lemma resolve_and_execute_long json_loads sid fc language code detected reqs b st msg :
  failure_reason json_loads (b_exec b) = Some msg -> (1024 < String.length msg)%nat ->
  let '(r, st') := resolve_and_execute json_loads sid fc language code detected reqs b st in
  exec_calls (st_events st') <> exec_calls (st_events st) ->
  r = None /\ posts (st_events st') = posts (st_events st).
Proof.
  intros Hmsg Hl.
  destruct (find_language_id_shape language b st) as [res [st1 [Hfind [Hdb Hev]]]].
  assert (Hx1 : exec_calls (st_events st1) = exec_calls (st_events st)).
  { destruct Hev as [-> | ->]; rewrite ?exec_calls_app; simpl; lia. }
  assert (Hp1 : posts (st_events st1) = posts (st_events st)).
  { destruct Hev as [-> | ->]; rewrite ?posts_app; simpl; rewrite ?app_nil_r; reflexivity. }
  destruct (resolve_and_execute json_loads sid fc language code detected reqs b st)
    as [r st'] eqn:ER.
  unfold resolve_and_execute in ER. rewrite bind_run, Hfind in ER.
  destruct res as [lid|].
  - unfold followup_send in ER.
    destruct (field_ok (str_of_Z lid) && field_ok (detected_value detected) && list_field_ok reqs).
    2: { cbn [bind raise] in ER. injection ER as _ <-. intros H. exfalso. exact (H Hx1). }
    rewrite bind_run, emit_run, bind_run in ER.
    rewrite (execute_caught_failure _ _ _ _ _ _ Hmsg) in ER.
    cbn [error_in existsb fst String.eqb] in ER.
    rewrite bind_run in ER. cbn [ret orb] in ER.
    match type of ER with
    | context [if ?c then exec_failed_path _ _ _ _ else _] =>
        replace c with true in ER by reflexivity
    end.
    change (if true then ?x else _) with x in ER.
    rewrite (exec_failed_path_long _ _ _ _ _ _ Hl) in ER.
    injection ER as <- <-. intros _. split; [reflexivity|].
    cbn [st_events]. rewrite !posts_app. simpl. rewrite !app_nil_r. exact Hp1.
  - unfold fetch_judge0_languages, followup_send, update, with_db, emit, bind, ask, ret, raise
      in ER.
    destruct st1 as [d1 c1 e1]. cbn [st_db st_cache st_events] in *.
    cbn [fst snd] in ER. intros H. exfalso. apply H.
    destruct (description_ok _); injection ER as _ <-; cbn [st_events];
      rewrite ?exec_calls_app; simpl; lia.
Qed.

(** A Judge0 failure whose reason is longer than 1024 characters, once
    the execution is requested: the row is "exec_failed" with the reason
    as stderr, but the "Execution Failed" follow-up is refused by
    Discord, so the command ends with an exception and nothing is posted
    to the form channel. *)
Theorem failed_execution_long_reason json_loads max_len rq b st msg fc :
  failure_reason json_loads (b_exec b) = Some msg ->
  (1024 < String.length msg)%nat ->
  admitted max_len rq (st_db st) fc ->
  let '(r, st') := submit_code json_loads max_len rq b st in
  exec_calls (st_events st') <> exec_calls (st_events st) ->
  r = None /\ posts (st_events st') = posts (st_events st) /\
  option_map sub_status (new_submission st st') = Some "exec_failed" /\
  option_map sub_run_stderr (new_submission st st') = Some (Some msg).
Proof.
  intros Hmsg Hl Ha.
  pose proof (submit_code_failure json_loads max_len rq b st msg fc Hmsg Ha) as HF.
  cbv zeta in HF.
  destruct Ha as [gid [Hg [Hf [Hfc Hlen]]]].
  destruct (submit_code json_loads max_len rq b st) as [r st'] eqn:ES.
  cbn [snd] in HF. destruct HF as [_ HF].
  intros Hn. destruct (HF Hn) as [_ [Hs [He _]]].
  rewrite (submit_code_intake _ _ _ _ _ _ _ Hg Hf Hfc Hlen) in ES. cbv zeta in ES.
  destruct (static_risk_check (rq_code rq)) as [score reasons].
  destruct (50 <=? score).
  - injection ES as _ <-. exfalso. apply Hn. cbn [st_events]. rewrite exec_calls_app.
    simpl. lia.
  - pose proof (resolve_and_execute_long json_loads (next_id (st_db st)) fc (rq_language rq)
                  (rq_code rq) (detect_external_packages (rq_code rq) (rq_language rq))
                  (req_list (rq_requirements rq)) b (reviewed_state rq gid reasons st) msg
                  Hmsg Hl) as HR.
    rewrite ES in HR.
    assert (Hev : st_events (reviewed_state rq gid reasons st) = st_events st).
    { unfold reviewed_state. destruct (save_submission _ _ _ _ _ _ _ _ _ _). reflexivity. }
    rewrite Hev in HR. destruct (HR Hn) as [Hr Hp].
    repeat split; assumption.
Qed.

(** A connection error whose message has 1100 characters. *)
Definition long_reason : string := string_of_list_ascii (repeat "x"%char 1100).

Lemma failed_execution_long_reason_witness :
  let rq := mkRequest (Some 1) 7 "python" "print(1)" None in
  let b := mkBackend (Some catalog_py) (ReplyException long_reason) [10] [] true in
  (failure_reason (fun _ => None) (b_exec b) = Some long_reason /\
   (1024 < String.length long_reason)%nat /\
   admitted 8000 rq (st_db (empty_state db_guild1)) 10) /\
  (let '(r, st') := submit_code (fun _ => None) 8000 rq b (empty_state db_guild1) in
   exec_calls (st_events st') <> exec_calls (st_events (empty_state db_guild1)) ->
   r = None /\ posts (st_events st') = posts (st_events (empty_state db_guild1)) /\
   option_map sub_status (new_submission (empty_state db_guild1) st') = Some "exec_failed" /\
   option_map sub_run_stderr (new_submission (empty_state db_guild1) st') =
   Some (Some long_reason)).
Proof.
  cbv zeta.
  assert (Ha : admitted 8000 (mkRequest (Some 1) 7 "python" "print(1)" None)
                 (st_db (empty_state db_guild1)) 10).
  { exists 1. split; [reflexivity|]. split; [reflexivity|]. split; [discriminate|].
    apply Nat.ltb_ge. vm_compute. reflexivity. }
  assert (Hl : (1024 < String.length long_reason)%nat).
  { apply Nat.ltb_lt. vm_compute. reflexivity. }
  split; [split; [reflexivity|split; [exact Hl|exact Ha]]|].
  exact (failed_execution_long_reason (fun _ => None) 8000
           (mkRequest (Some 1) 7 "python" "print(1)" None)
           (mkBackend (Some catalog_py) (ReplyException long_reason) [10] [] true)
           (empty_state db_guild1) long_reason 10 eq_refl Hl Ha).
Defined.
